(** * picoboot: the serial frame protocol and the paged write of picoboot.c

    A shallow embedding of [src/picoboot.c] (the avrdude driver of the
    picoboot bootloader) and the properties of its frame pipeline and of
    its page-write algorithm.

    Integers are [Z] with the C conversions written out ([u8], [u16],
    [u32], [s32]); the flash image [m->buf] is a list of bytes read and
    written by index; the serial line is a script of pending responses and
    a log of what went over it. *)

From Stdlib Require Import ZArith List String Lia Bool.
From stdpp Require Import base list strings.

Local Open Scope Z_scope.

(** ** C integer conversions *)

Definition u8 (x : Z) : Z := x mod 256.
Definition u16 (x : Z) : Z := x mod 65536.
Definition u32 (x : Z) : Z := x mod 4294967296.

(** [unsigned int] to [int], two's complement. *)
Definition s32 (x : Z) : Z :=
  if u32 x <? 2147483648 then u32 x else u32 x - 4294967296.

(** ** Data *)

(** [struct frame]: four bytes, in wire order. *)
Record frame : Type := mk_frame
  { data_lo : Z; data_hi : Z; check : Z; command : Z }.

(** the [char *buf = (char* )f] view of a frame *)
Definition frame_bytes (fr : frame) : list Z :=
  [data_lo fr; data_hi fr; check fr; command fr].

Definition sizeof_frame : Z := 4.

(** due to ACK buffering, keep MAX_FRAMES <= serial fifo size *)
Definition MAX_FRAMES : Z := 8.

(** 2 byte virtual reset vector + 64 bytes code = 66 *)
Definition BOOTLOADER_SIZE : Z := 66.

(** The fields of [AVRMEM] that picoboot.c uses. *)
Record AVRMEM : Type := mk_mem
  { desc : string; size : Z; buf : list Z }.

(** What crosses the serial line: one [serial_send] of a byte block, or one
    one-byte [serial_recv], which yields a byte or fails ([None]). *)
Inductive event : Type :=
| Tx (bytes : list Z)
| Rx (r : option Z).

(** The diagnostics before [exit (1)]. *)
Inductive diag : Type :=
| ProtocolError    (* picoboot_wait_ack: expect ACK=0x00 *)
| BootloaderWrite  (* attempt to write to bootloader memory *)
| NoResetVector.   (* No reset vector in flash file *)

(** How a run stops without a return value: [exit (1)], an access outside
    an array (undefined in C), or the fuel of the model running out. *)
Inductive halt : Type :=
| Exit (d : diag)
| Undefined
| OutOfFuel.

Inductive res (A : Type) : Type :=
| Val (a : A)
| Halt (h : halt).
Arguments Val {A} a.
Arguments Halt {A} h.

(** The state the driver works on:
    - [mem]: the [AVRMEM] the caller passes, whose [buf] is written in place;
    - [f]: the local [struct frame f] of [picoboot_paged_write], shared by
      its nested functions;
    - [win]: the bytes of the static [buf] of [picoboot_buffered_send]
      below [bufp];
    - [line]: the responses the device will give to the coming one-byte
      reads, [None] for a read that fails; a silent line fails every read;
    - [log]: what went over the line so far, oldest first. *)
Record world : Type := mk_world
  { mem : AVRMEM; f : frame; win : list Z;
    line : list (option Z); log : list event }.

(** ** A state monad with halting *)

Definition M (A : Type) : Type := world -> res A * world.

Definition ret {A} (a : A) : M A := fun w => (Val a, w).

Definition bind {A B} (c : M A) (k : A -> M B) : M B :=
  fun w => match c w with
           | (Val a, w') => k a w'
           | (Halt h, w') => (Halt h, w')
           end.

Definition stop {A} (h : halt) : M A := fun w => (Halt h, w).

Notation "x <- c ;; k" := (bind c (fun x => k))
  (at level 100, c at next level, right associativity).
Notation "c ;;; k" := (bind c (fun _ => k))
  (at level 100, right associativity).

(** ** The transport *)

(** Modelled from the spec: [serial_send] of serial.h (declared there, not
    under src/): a blocking send of the whole block; its result is ignored
    by every caller in picoboot.c. *)
Definition serial_send (bytes : list Z) : M unit :=
  fun w => (Val tt,
            mk_world (mem w) (f w) (win w) (line w) (log w ++ [Tx bytes])).

(** Modelled from the spec: [serial_recv] of serial.h for one byte: a
    blocking read that yields the byte or fails (a negative result) on
    timeout. *)
Definition serial_recv1 : M (option Z) :=
  fun w => match line w with
           | [] =>
               (Val None,
                mk_world (mem w) (f w) (win w) [] (log w ++ [Rx None]))
           | r :: rest =>
               (Val r,
                mk_world (mem w) (f w) (win w) rest (log w ++ [Rx r]))
           end.

(** ** Accessors of the state *)

(** [f.data_lo = lo; f.data_hi = hi; f.command = cmd;] *)
Definition set_f (lo hi cmd : Z) : M unit :=
  fun w => (Val tt,
            mk_world (mem w) (mk_frame lo hi (check (f w)) cmd)
                     (win w) (line w) (log w)).

(** [m->buf[i]] read as a byte; outside the array the run is undefined. *)
Definition load8 (i : Z) : M Z :=
  fun w => if i <? 0 then (Halt Undefined, w)
           else match buf (mem w) !! Z.to_nat i with
                | Some b => (Val (u8 b), w)
                | None => (Halt Undefined, w)
                end.

(** [m->buf[i] = v] *)
Definition store8 (i v : Z) : M unit :=
  fun w => if (i <? 0) || (Z.of_nat (length (buf (mem w))) <=? i)
           then (Halt Undefined, w)
           else (Val tt,
                 mk_world (mk_mem (desc (mem w)) (size (mem w))
                                  (<[Z.to_nat i := u8 v]> (buf (mem w))))
                          (f w) (win w) (line w) (log w)).

(** ** picoboot.c *)

(** [f->check = f->data_lo ^ f->data_hi ^ f->command;] *)
Definition set_check : M unit :=
  fun w =>
    let fr := f w in
    (Val tt,
     mk_world (mem w)
              (mk_frame (data_lo fr) (data_hi fr)
                        (Z.lxor (Z.lxor (data_lo fr) (data_hi fr)) (command fr))
                        (command fr))
              (win w) (line w) (log w)).

Definition picoboot_send_frame : M unit :=
  set_check ;;;
  fun w => serial_send (frame_bytes (f w)) w.

Definition picoboot_wait_ack : M Z :=
  r <- serial_recv1 ;;
  match r with
  | None => ret (-1)
  | Some resp => if resp =? 0 then ret 0 else stop (Exit ProtocolError)
  end.

(** [for (ack_count = MAX_FRAMES; ack_count--;)
      if (picoboot_wait_ack(fd) != 0) return -1;]
    followed by the [return 0] of the function. *)
Fixpoint wait_acks (ack_count : nat) : M Z :=
  match ack_count with
  | O => ret 0
  | S n =>
      r <- picoboot_wait_ack ;;
      if negb (r =? 0) then ret (-1) else wait_acks n
  end.

(** send multiple frames back-to-back for higher serial throughput.
    The static buffer holds [MAX_FRAMES] frames; a [memcpy] beyond it is
    undefined. *)
Definition picoboot_buffered_send : M Z :=
  set_check ;;;
  fun w =>
    if MAX_FRAMES * sizeof_frame <? Z.of_nat (length (win w)) + sizeof_frame
    then (Halt Undefined, w)
    else
      let win' := win w ++ frame_bytes (f w) in
      (* check for full buffer *)
      if Z.of_nat (length win') =? MAX_FRAMES * sizeof_frame then
        (serial_send win' ;;;
         (fun w1 =>
            wait_acks (Z.to_nat MAX_FRAMES)
              (mk_world (mem w1) (f w1) [] (line w1) (log w1)))) w
      else
        (Val 0, mk_world (mem w) (f w) win' (line w) (log w)).

(** One turn of the loop of [fill_page_buf]; the results of the two
    buffered sends are not looked at. *)
Definition fill_word (cur_addr : Z) : M unit :=
  lo <- load8 cur_addr ;;
  hi <- load8 (cur_addr + 1) ;;
  set_f lo hi 0 ;;;
  picoboot_buffered_send ;;;
  set_f (Z.land cur_addr 255) (Z.shiftr (Z.land cur_addr 65280) 8) 1 ;;;
  picoboot_buffered_send ;;;
  ret tt.

(** [for (;cur_addr < (page_addr + page_size); cur_addr+=2 )]: the bound is
    computed in [unsigned int], [cur_addr] is a [uint16_t]. *)
Fixpoint fill_loop (fuel : nat) (page_addr page_size cur_addr : Z) : M Z :=
  if cur_addr <? u32 (page_addr + page_size) then
    match fuel with
    | O => stop OutOfFuel
    | S fuel' =>
        fill_word cur_addr ;;;
        fill_loop fuel' page_addr page_size (u16 (cur_addr + 2))
    end
  else ret 0.

(** [int fill_page_buf (uint16_t page_addr)] *)
Definition fill_page_buf (fuel : nat) (page_size page_addr : Z) : M Z :=
  fill_loop fuel page_addr page_size page_addr.

(** [int erase_page (int page_addr)] *)
Definition erase_page (page_addr : Z) : M Z :=
  set_f (Z.land page_addr 255) (Z.shiftr (Z.land page_addr 65280) 8) 3 ;;;
  picoboot_send_frame ;;;
  r <- picoboot_wait_ack ;;
  if negb (r =? 0) then ret (-1) else ret 0.

(** [int write_page (int page_addr)] *)
Definition write_page (page_addr : Z) : M Z :=
  set_f (Z.land page_addr 255) (Z.shiftr (Z.land page_addr 65280) 8) 5 ;;;
  picoboot_send_frame ;;;
  r <- picoboot_wait_ack ;;
  if negb (r =? 0) then ret (-1) else ret 0.

(** fill, erase and write one page; [-1] at the first step that fails *)
Definition program_page (fuel : nat) (page_size : Z)
    (fill_addr page_addr : Z) (k : M Z) : M Z :=
  r1 <- fill_page_buf fuel page_size fill_addr ;;
  if negb (r1 =? 0) then ret (-1) else
  r2 <- erase_page page_addr ;;
  if negb (r2 =? 0) then ret (-1) else
  r3 <- write_page page_addr ;;
  if negb (r3 =? 0) then ret (-1) else k.

Definition reset_vec_lo : Z := 223.   (* 0xdf, rjmp BootStart *)
Definition reset_vec_hi : Z := 207.   (* 0xcf, rjmp BootStart *)

(** [uint16_t vrst_vec_addr = m->size - BOOTLOADER_SIZE;] *)
Definition vrst_vec_addr (m : AVRMEM) : Z := u16 (size m - BOOTLOADER_SIZE).

(** the new rjmp for appstart *)
Definition new_appstart (appstart : Z) : Z :=
  Z.lor 49152 (Z.land (Z.land appstart 4095 + BOOTLOADER_SIZE / 2) 4095).

(** The [if ( addr == 0 )] block: save and redirect the reset vector, then
    program the page of the virtual reset vector. *)
Definition relocate_reset_vector (fuel : nat) (page_size : Z) (k : M Z) : M Z :=
  fun w =>
    let vrst := vrst_vec_addr (mem w) in
    let vrst_vec_page := u16 (vrst - page_size + 2) in
    (b0 <- load8 0 ;;
     b1 <- load8 1 ;;
     let appstart := u16 (Z.lor b0 (Z.shiftl b1 8)) in
     (* validate rjmp at reset vector *)
     if negb (Z.land appstart 61440 =? 49152) then stop (Exit NoResetVector)
     else
       store8 0 reset_vec_lo ;;;
       store8 1 reset_vec_hi ;;;
       let appstart := u16 (new_appstart appstart) in
       store8 vrst (Z.land appstart 255) ;;;
       store8 (vrst + 1) (Z.shiftr appstart 8) ;;;
       program_page fuel page_size vrst_vec_page vrst_vec_page k) w.

(** write one page - called from avr.c:avr_write; last param num_bytes
    always == page_size *)
Definition picoboot_paged_write (fuel : nat)
    (page_size addr num_bytes : Z) : M Z :=
  fun w =>
    let vrst := vrst_vec_addr (mem w) in
    (* only flash write supported *)
    if negb (String.eqb (desc (mem w)) "flash"%string) then (Val (-1), w)
    else if vrst <=? addr then (Halt (Exit BootloaderWrite), w)
    else if u32 (vrst - page_size) <? addr then
      (* virtual reset vector page written along with page 0 *)
      (Val (s32 num_bytes), w)
    else
      let page := program_page fuel page_size (u16 addr) (s32 addr)
                               (ret (s32 num_bytes)) in
      if addr =? 0 then relocate_reset_vector fuel page_size page w
      else page w.

(** ** Vocabulary of the statements *)

(** The flash of a device that carries the bootloader: the memory class is
    "flash", the buffer holds [size] bytes, the reserved 66 bytes and the
    2-byte reset vector fit, and byte addresses fit the 16 bits the driver
    computes with. *)
Definition flash_image (m : AVRMEM) : Prop :=
  desc m = "flash"%string /\
  Z.of_nat (length (buf m)) = size m /\
  BOOTLOADER_SIZE + 2 <= size m <= 65536.

(** The 16-bit word of two bytes, low byte first. *)
Definition word16 (b0 b1 : Z) : Z := u16 (Z.lor (u8 b0) (Z.shiftl (u8 b1) 8)).

(** AVR [rjmp k] is encoded [1100 kkkk kkkk kkkk]. *)
Definition is_rjmp (wd : Z) : Prop := Z.land wd 61440 = 49152.
Definition rjmp_offset (wd : Z) : Z := Z.land wd 4095.
Definition rjmp (k : Z) : Z := Z.lor 49152 k.

(** ** What a run may change in the image *)

(** [m'] is [m] except, possibly, for the bytes at the offsets in [S]. *)
Definition same_except (S : list nat) (m m' : AVRMEM) : Prop :=
  desc m' = desc m /\ size m' = size m /\
  length (buf m') = length (buf m) /\
  forall i : nat, ~ In i S -> buf m' !! i = buf m !! i.

(** a computation that writes the image at the offsets in [S] only *)
Definition writes_only {A} (S : list nat) (c : M A) : Prop :=
  forall w r w', c w = (r, w') -> same_except S (mem w) (mem w').

(** a computation that does not write the image at all *)
Definition keeps_mem {A} (c : M A) : Prop :=
  forall w r w', c w = (r, w') -> mem w' = mem w.

(** ** The redirection of the reset vector *)

(** The image after the four stores of the [addr == 0] block, [wd] being
    the word read at offset 0. *)
Definition redirect (m : AVRMEM) (wd : Z) : AVRMEM :=
  let v := vrst_vec_addr m in
  let a := u16 (new_appstart wd) in
  mk_mem (desc m) (size m)
    (<[Z.to_nat (v + 1) := u8 (Z.shiftr a 8)]>
       (<[Z.to_nat v := u8 (Z.land a 255)]>
          (<[1%nat := u8 reset_vec_hi]>
             (<[0%nat := u8 reset_vec_lo]> (buf m))))).

Definition with_mem (w : world) (m : AVRMEM) : world :=
  mk_world m (f w) (win w) (line w) (log w).

(** ** The frame pipeline *)

(** the frame as it leaves: the check byte is the xor of the other three *)
Definition sealed (fr : frame) : frame :=
  mk_frame (data_lo fr) (data_hi fr)
           (Z.lxor (Z.lxor (data_lo fr) (data_hi fr)) (command fr))
           (command fr).

Definition make_frame (lo hi cmd : Z) : frame :=
  sealed (mk_frame lo hi 0 cmd).

(** What a caller does to pass one frame to the pipeline: assign the three
    fields of [f], then call [picoboot_buffered_send(fd, &f)]. *)
Definition submit (fr : frame) : M Z :=
  set_f (data_lo fr) (data_hi fr) (command fr) ;;;
  picoboot_buffered_send.

(** A sequence of such calls; as in [fill_page_buf], their results are not
    looked at. *)
Fixpoint buffered_sends (frs : list frame) : M unit :=
  match frs with
  | [] => ret tt
  | fr :: rest => submit fr ;;; buffered_sends rest
  end.

(** the bytes of a sequence of frames on the line *)
Definition wire (frs : list frame) : list Z :=
  flat_map (fun fr => frame_bytes (sealed fr)) frs.

(** the log of one flush that is acknowledged in full *)
Definition flush_log (window : list frame) : list event :=
  Tx (wire window) :: repeat (Rx (Some 0)) (Z.to_nat MAX_FRAMES).

(** all the bytes sent in a log, in order *)
Fixpoint tx_bytes (l : list event) : list Z :=
  match l with
  | [] => []
  | Tx bs :: l' => bs ++ tx_bytes l'
  | Rx _ :: l' => tx_bytes l'
  end.

(** The number of frames sent and not yet acknowledged after [e], [cur]
    being the number before. *)
Definition in_flight_after (cur : Z) (e : event) : Z :=
  match e with
  | Tx bs => cur + Z.of_nat (length bs) / sizeof_frame
  | Rx (Some 0) => cur - 1
  | Rx _ => cur
  end.

(** the largest number of frames in flight along a log *)
Fixpoint peak_in_flight (cur : Z) (l : list event) : Z :=
  match l with
  | [] => cur
  | e :: l' => Z.max cur (peak_in_flight (in_flight_after cur e) l')
  end.

(** the first [n] windows of [MAX_FRAMES] frames of a sequence of frames *)
Fixpoint windows_aux (n : nat) (frs : list frame) : list (list frame) :=
  match n with
  | O => []
  | S n' => take 8 frs :: windows_aux n' (drop 8 frs)
  end.

(** the whole windows of a sequence of frames *)
Definition windows (frs : list frame) : list (list frame) :=
  windows_aux (length frs / 8) frs.

(** the frames after the last whole window *)
Definition leftover (frs : list frame) : list frame :=
  drop (8 * (length frs / 8)) frs.

(** the answer of the line to the next one-byte read *)
Definition next_response (l : list (option Z)) : option Z :=
  match l with
  | [] => None
  | r :: _ => r
  end.

(** every byte received along [l] is 0x00 *)
Definition zero_acks (l : list event) : Prop :=
  forall b, In (Rx (Some b)) l -> b = 0.

(** Along a run of [c] the log only grows, and either every byte received
    was 0x00 or the run ended in [exit] with the protocol diagnostic. *)
Definition exits_on_bad_ack {A} (c : M A) : Prop :=
  forall w r w', c w = (r, w') ->
    exists l, log w' = log w ++ l /\
              (zero_acks l \/ r = Halt (Exit ProtocolError)).

(** ** The fill step *)

(** the byte of the image at offset [i] *)
Definition image_byte (b : list Z) (i : Z) : Z :=
  u8 (default 0 (b !! Z.to_nat i)).

(** the two payload bytes that carry a 16-bit address *)
Definition addr_lo (a : Z) : Z := Z.land a 255.
Definition addr_hi (a : Z) : Z := Z.shiftr (Z.land a 65280) 8.

(** The frames of [n] words of the image from the address [cur] on: for
    each word a data-stage frame (command 0x00) with its two bytes, then a
    fill-buffer frame (command 0x01) with the address of the word. *)
Fixpoint fill_frames (b : list Z) (cur : Z) (n : nat) : list frame :=
  match n with
  | O => []
  | S n' =>
      make_frame (image_byte b cur) (image_byte b (cur + 1)) 0
        :: make_frame (addr_lo cur) (addr_hi cur) 1
        :: fill_frames b (cur + 2) n'
  end.

(** The frames as the specification words them: the fill-buffer frame
    carries the offset of the word within the page. *)
Fixpoint offset_fill_frames (b : list Z) (page_addr off : Z) (n : nat)
  : list frame :=
  match n with
  | O => []
  | S n' =>
      make_frame (image_byte b (page_addr + off))
                 (image_byte b (page_addr + off + 1)) 0
        :: make_frame (addr_lo off) (addr_hi off) 1
        :: offset_fill_frames b page_addr (off + 2) n'
  end.

(** the number of turns of the loop over a page of [page_size] bytes *)
Definition page_words (page_size : Z) : nat := Z.to_nat ((page_size + 1) / 2).

(** ** Programming one page *)

(** the frames of one page: fill, erase, write *)
Definition page_frames (b : list Z) (page_addr : Z) (n : nat) : list frame :=
  fill_frames b page_addr n
  ++ [make_frame (addr_lo page_addr) (addr_hi page_addr) 3;
      make_frame (addr_lo page_addr) (addr_hi page_addr) 5].

(** The log of one page that is acknowledged in full: the flushes of the
    fill frames, then the erase frame and the write frame, each with its
    acknowledgement. *)
Definition page_log (b : list Z) (page_addr : Z) (n : nat) : list event :=
  flat_map flush_log (windows (fill_frames b page_addr n))
  ++ [Tx (frame_bytes (make_frame (addr_lo page_addr) (addr_hi page_addr) 3));
      Rx (Some 0);
      Tx (frame_bytes (make_frame (addr_lo page_addr) (addr_hi page_addr) 5));
      Rx (Some 0)].

(** ** Concrete runs *)

(** A 128-byte flash: [rjmp .+0x3f0] (0xf0 0xc3) at the reset vector, the
    byte at every other offset equal to the offset. The reserved region
    starts at 62. *)
Definition demo_buf : list Z := 240 :: 195 :: map Z.of_nat (seq 2 126).

Definition demo_mem : AVRMEM := mk_mem "flash" 128 demo_buf.

(** the state before a call: empty window, nothing logged, the line
    holding the responses [rx] *)
Definition demo_world (m : AVRMEM) (rx : list (option Z)) : world :=
  mk_world m (mk_frame 0 0 0 0) [] rx [].

(** the same buffer offered as another memory class *)
Definition demo_eeprom : AVRMEM := mk_mem "eeprom" 128 demo_buf.

(** an image without a jump at the reset vector *)
Definition demo_bad_mem : AVRMEM :=
  mk_mem "flash" 128 (12 :: 148 :: map Z.of_nat (seq 2 126)).

Definition nine_frames : list frame :=
  map (fun i => mk_frame i (i + 1) 0 0) [1; 2; 3; 4; 5; 6; 7; 8; 9].

(** a flash of 65536 bytes, all 0x00: its buffer reaches the end of the
    16-bit range *)
Definition demo_wide_mem : AVRMEM :=
  mk_mem "flash" 65536 (repeat 0 (Z.to_nat 65536)).

(** ** Further code of picoboot.c *)

(** [picoboot_initialize]: [memset (&f, 0, sizeof(f))], the frame of zeros
    is sent and its acknowledgement awaited. The frame is a local of this
    function; it is held in the slot [f] of the state. *)
Definition picoboot_initialize : M Z :=
  (fun w => (Val tt, mk_world (mem w) (mk_frame 0 0 0 0)
                              (win w) (line w) (log w))) ;;;
  picoboot_send_frame ;;;
  picoboot_wait_ack.

(** ** Invariants of a run *)

(** From a state in [P], a run of [c] that returns [a] ends in a state in
    [Q a], and a run that halts with [h] ends in a state in [E h]. *)
Definition triple {A} (P : world -> Prop) (c : M A)
    (Q : A -> world -> Prop) (E : halt -> world -> Prop) : Prop :=
  forall w r w', P w -> c w = (r, w') ->
    match r with
    | Val a => Q a w'
    | Halt h => E h w'
    end.

(** A block of bytes that is a sequence of whole frames, each with the
    check byte [data_lo ^ data_hi ^ command]. *)
Fixpoint frames_ok (bs : list Z) : bool :=
  match bs with
  | [] => true
  | lo :: hi :: ck :: cmd :: rest =>
      (ck =? Z.lxor (Z.lxor lo hi) cmd) && frames_ok rest
  | _ => false
  end.

(** In a block of frames, every frame that is not a data-stage frame
    (command 0x00) carries an address below [limit]. *)
Fixpoint frames_below (limit : Z) (bs : list Z) : bool :=
  match bs with
  | lo :: hi :: ck :: cmd :: rest =>
      ((cmd =? 0) || (lo + 256 * hi <? limit)) && frames_below limit rest
  | _ => true
  end.

(** The state of the pipeline along a run that started with the log [l0]:
    the window holds whole checksummed frames, fewer than [MAX_FRAMES],
    and so does every block sent since; [extra] is a further condition on
    the window and on the blocks. *)
Definition inv (extra : list Z -> bool) (l0 : list event) (w : world) : Prop :=
  frames_ok (win w) = true /\ extra (win w) = true /\
  (length (win w) < 32)%nat /\
  exists l, log w = l0 ++ l /\
            forall bs, In (Tx bs) l ->
                       frames_ok bs = true /\ extra bs = true.

(** a halt that is an [exit (1)] of the driver *)
Definition is_exit (h : halt) : Prop := exists d, h = Exit d.

(** a computation that leaves the window and the log as they are *)
Definition quiet {A} (c : M A) : Prop :=
  forall w r w', c w = (r, w') -> win w' = win w /\ log w' = log w.

(** * Lemmas and theorems *)

(** ** Conversions *)

Lemma u16_small x : 0 <= x < 65536 -> u16 x = x.
Proof. intros H. unfold u16. apply Z.mod_small. lia. Qed.

Lemma u32_small x : 0 <= x < 4294967296 -> u32 x = x.
Proof. intros H. unfold u32. apply Z.mod_small. lia. Qed.

Lemma u8_small x : 0 <= x < 256 -> u8 x = x.
Proof. intros H. unfold u8. apply Z.mod_small. lia. Qed.

Lemma s32_small x : 0 <= x < 2147483648 -> s32 x = x.
Proof.
  intros H. unfold s32. rewrite u32_small by lia.
  destruct (x <? 2147483648) eqn:E; [reflexivity | lia].
Qed.

Lemma u32_nonneg x : 0 <= u32 x.
Proof. unfold u32. pose proof (Z.mod_pos_bound x 4294967296). lia. Qed.

Lemma u16_le x : 0 <= x -> u16 x <= x.
Proof. intros H. unfold u16. apply Z.mod_le; lia. Qed.

Lemma vrst_vec_addr_eq m :
  BOOTLOADER_SIZE <= size m < 65536 + BOOTLOADER_SIZE ->
  vrst_vec_addr m = size m - BOOTLOADER_SIZE.
Proof. intros H. unfold vrst_vec_addr. apply u16_small. lia. Qed.

Lemma flash_eqb m : desc m = "flash"%string ->
  negb (String.eqb (desc m) "flash") = false.
Proof. intros ->. reflexivity. Qed.

Lemma not_flash_eqb m : desc m <> "flash"%string ->
  negb (String.eqb (desc m) "flash") = true.
Proof.
  intros H. destruct (String.eqb (desc m) "flash") eqn:E; [|reflexivity].
  apply String.eqb_eq in E. contradiction.
Qed.

(** ** The guards of the paged write *)

(** C9: a paged write that names a memory class other than "flash" returns
    -1, an ordinary failure: the state is the one before the call, so
    nothing was sent or read on the line, and the run did not exit. *)
Theorem paged_write_other_memory :
  forall fuel page_size addr num_bytes w,
    desc (mem w) <> "flash"%string ->
    picoboot_paged_write fuel page_size addr num_bytes w = (Val (-1), w).
Proof.
  intros fuel page_size addr num_bytes w H.
  unfold picoboot_paged_write. now rewrite not_flash_eqb.
Qed.

(** C1: a paged write to flash whose start address is at or beyond
    [size - BOOTLOADER_SIZE] exits with the bootloader-memory diagnostic;
    the state is the one before the call, so no fill, erase or write frame
    went out. No condition on [page_size], [num_bytes] or the image. *)
Theorem paged_write_bootloader_region :
  forall fuel page_size addr num_bytes w,
    desc (mem w) = "flash"%string ->
    BOOTLOADER_SIZE <= size (mem w) ->
    size (mem w) - BOOTLOADER_SIZE <= addr ->
    picoboot_paged_write fuel page_size addr num_bytes w
    = (Halt (Exit BootloaderWrite), w).
Proof.
  intros fuel page_size addr num_bytes w Hd Hs Ha.
  unfold picoboot_paged_write. rewrite flash_eqb by assumption.
  assert (Hv : vrst_vec_addr (mem w) <= addr).
  { unfold vrst_vec_addr.
    pose proof (u16_le (size (mem w) - BOOTLOADER_SIZE)). lia. }
  destruct (vrst_vec_addr (mem w) <=? addr) eqn:E; [reflexivity | lia].
Qed.

(** C4: on a flash whose application area holds at least one page, a paged
    write that starts strictly between [size - 66 - page_size] and
    [size - 66] returns [num_bytes] and leaves the state as it was: no
    frame is sent. *)
Theorem paged_write_adjacent_page :
  forall fuel page_size addr num_bytes w,
    desc (mem w) = "flash"%string ->
    size (mem w) - BOOTLOADER_SIZE < 65536 ->
    0 <= page_size <= size (mem w) - BOOTLOADER_SIZE ->
    0 <= num_bytes < 2147483648 ->
    size (mem w) - BOOTLOADER_SIZE - page_size < addr
                                   < size (mem w) - BOOTLOADER_SIZE ->
    picoboot_paged_write fuel page_size addr num_bytes w
    = (Val num_bytes, w).
Proof.
  intros fuel page_size addr num_bytes w Hd Hs Hp Hn Ha.
  unfold picoboot_paged_write. rewrite flash_eqb by assumption.
  rewrite vrst_vec_addr_eq by lia.
  destruct (size (mem w) - BOOTLOADER_SIZE <=? addr) eqn:E1; [lia|].
  rewrite u32_small by lia.
  destruct (size (mem w) - BOOTLOADER_SIZE - page_size <? addr) eqn:E2; [|lia].
  now rewrite s32_small.
Qed.

(** C5: on a flash image whose first two bytes are not an [rjmp], a paged
    write at address 0 exits with the reset-vector diagnostic; the state is
    the one before the call, so no frame went out and the image is as it
    was. *)
Theorem paged_write_no_reset_vector :
  forall fuel page_size num_bytes w b0 b1,
    flash_image (mem w) ->
    buf (mem w) !! 0%nat = Some b0 ->
    buf (mem w) !! 1%nat = Some b1 ->
    ~ is_rjmp (word16 b0 b1) ->
    picoboot_paged_write fuel page_size 0 num_bytes w
    = (Halt (Exit NoResetVector), w).
Proof.
  intros fuel page_size num_bytes w b0 b1 (Hd & Hl & Hs) H0 H1 Hj.
  unfold BOOTLOADER_SIZE in Hs.
  unfold picoboot_paged_write. rewrite flash_eqb by assumption.
  rewrite vrst_vec_addr_eq by (unfold BOOTLOADER_SIZE; lia).
  unfold BOOTLOADER_SIZE.
  destruct (size (mem w) - 66 <=? 0) eqn:E1; [lia|].
  pose proof (u32_nonneg (size (mem w) - 66 - page_size)).
  destruct (u32 (size (mem w) - 66 - page_size) <? 0) eqn:E2; [lia|].
  simpl. unfold relocate_reset_vector, bind, load8. simpl.
  change (Z.to_nat 0) with 0%nat. rewrite H0.
  change (Z.to_nat 1) with 1%nat. rewrite H1. fold (word16 b0 b1).
  destruct (Z.land (word16 b0 b1) 61440 =? 49152) eqn:E3.
  - apply Z.eqb_eq in E3. contradiction.
  - reflexivity.
Qed.

(** ** Stepping through the monad *)

Lemma bind_val {A B} (c : M A) (k : A -> M B) w a w' :
  c w = (Val a, w') -> bind c k w = k a w'.
Proof. intros H. unfold bind. now rewrite H. Qed.

(** run the first computation of a bind whose result [tac] establishes *)
Ltac bind_step tac :=
  match goal with
  | |- bind ?c ?k ?w = _ =>
      let H := fresh "Hstep" in
      eassert (H : c w = (Val _, _)) by (tac);
      rewrite (bind_val c k w _ _ H); clear H
  end.

Lemma load8_in w i b :
  0 <= i -> buf (mem w) !! Z.to_nat i = Some b -> load8 i w = (Val (u8 b), w).
Proof.
  intros Hi Hb. unfold load8. rewrite Hb.
  destruct (i <? 0) eqn:E; [lia | reflexivity].
Qed.

Lemma store8_in w i v :
  0 <= i < Z.of_nat (length (buf (mem w))) ->
  store8 i v w
  = (Val tt,
     mk_world (mk_mem (desc (mem w)) (size (mem w))
                      (<[Z.to_nat i := u8 v]> (buf (mem w))))
              (f w) (win w) (line w) (log w)).
Proof.
  intros Hi. unfold store8.
  destruct (i <? 0) eqn:E1; [lia|].
  destruct (Z.of_nat (length (buf (mem w))) <=? i) eqn:E2; [lia|].
  reflexivity.
Qed.

(** ** What a run may change in the image *)

Lemma same_except_refl S m : same_except S m m.
Proof. unfold same_except. auto. Qed.

Lemma same_except_trans S m1 m2 m3 :
  same_except S m1 m2 -> same_except S m2 m3 -> same_except S m1 m3.
Proof.
  intros (Hd1 & Hs1 & Hl1 & Hb1) (Hd2 & Hs2 & Hl2 & Hb2).
  repeat split; try congruence.
  intros i Hi. rewrite Hb2, Hb1; auto.
Qed.

Lemma keeps_writes_only {A} S (c : M A) : keeps_mem c -> writes_only S c.
Proof.
  intros H w r w' E. rewrite (H _ _ _ E). apply same_except_refl.
Qed.

Lemma writes_only_bind {A B} S (c : M A) (k : A -> M B) :
  writes_only S c -> (forall a, writes_only S (k a)) ->
  writes_only S (bind c k).
Proof.
  intros Hc Hk w r w' E. unfold bind in E.
  destruct (c w) as [[a|h] w1] eqn:E1.
  - eapply same_except_trans; [eapply Hc; eauto | eapply Hk; eauto].
  - inversion E; subst. eapply Hc; eauto.
Qed.

Lemma keeps_mem_bind {A B} (c : M A) (k : A -> M B) :
  keeps_mem c -> (forall a, keeps_mem (k a)) -> keeps_mem (bind c k).
Proof.
  intros Hc Hk w r w' E. unfold bind in E.
  destruct (c w) as [[a|h] w1] eqn:E1.
  - rewrite (Hk _ _ _ _ E). eapply Hc; eauto.
  - inversion E; subst. eapply Hc; eauto.
Qed.

Lemma keeps_mem_ret {A} (a : A) : keeps_mem (ret a).
Proof. intros w r w' E. inversion E; reflexivity. Qed.

Lemma keeps_mem_stop {A} h : keeps_mem (@stop A h).
Proof. intros w r w' E. inversion E; reflexivity. Qed.

Lemma keeps_mem_if {A} (b : bool) (c1 c2 : M A) :
  keeps_mem c1 -> keeps_mem c2 -> keeps_mem (if b then c1 else c2).
Proof. destruct b; auto. Qed.

Lemma keeps_mem_serial_send bs : keeps_mem (serial_send bs).
Proof. intros w r w' E. inversion E; reflexivity. Qed.

Lemma keeps_mem_serial_recv1 : keeps_mem serial_recv1.
Proof.
  intros w r w' E. unfold serial_recv1 in E.
  destruct (line w); inversion E; reflexivity.
Qed.

Lemma keeps_mem_set_f lo hi cmd : keeps_mem (set_f lo hi cmd).
Proof. intros w r w' E. inversion E; reflexivity. Qed.

Lemma keeps_mem_set_check : keeps_mem set_check.
Proof. intros w r w' E. inversion E; reflexivity. Qed.

Lemma keeps_mem_load8 i : keeps_mem (load8 i).
Proof.
  intros w r w' E. unfold load8 in E.
  destruct (i <? 0); [|destruct (buf (mem w) !! Z.to_nat i)];
    inversion E; reflexivity.
Qed.

Create HintDb keeps.
#[local] Hint Resolve keeps_mem_ret keeps_mem_stop keeps_mem_serial_send
  keeps_mem_serial_recv1 keeps_mem_set_f keeps_mem_set_check
  keeps_mem_load8 : keeps.

Ltac keeps_step :=
  first [ solve [auto with keeps]
        | apply keeps_mem_bind; [|intros ?]
        | apply keeps_mem_if ].

Lemma keeps_mem_send_frame : keeps_mem picoboot_send_frame.
Proof.
  unfold picoboot_send_frame. apply keeps_mem_bind; [auto with keeps|].
  intros _ w r w' E. inversion E; reflexivity.
Qed.

Lemma keeps_mem_wait_ack : keeps_mem picoboot_wait_ack.
Proof.
  unfold picoboot_wait_ack. apply keeps_mem_bind; [auto with keeps|].
  intros [b|]; repeat keeps_step.
Qed.

Lemma keeps_mem_wait_acks n : keeps_mem (wait_acks n).
Proof.
  induction n as [|n IH]; simpl; [auto with keeps|].
  apply keeps_mem_bind; [apply keeps_mem_wait_ack|].
  intros a. apply keeps_mem_if; auto with keeps.
Qed.

Lemma keeps_mem_buffered_send : keeps_mem picoboot_buffered_send.
Proof.
  unfold picoboot_buffered_send. apply keeps_mem_bind; [auto with keeps|].
  intros _ w r w' E.
  destruct (MAX_FRAMES * sizeof_frame
            <? Z.of_nat (length (win w)) + sizeof_frame).
  { inversion E; reflexivity. }
  destruct (Z.of_nat (length (win w ++ frame_bytes (f w)))
            =? MAX_FRAMES * sizeof_frame).
  - unfold bind, serial_send in E. cbv beta iota in E.
    apply keeps_mem_wait_acks in E. exact E.
  - inversion E; reflexivity.
Qed.

#[local] Hint Resolve keeps_mem_send_frame keeps_mem_wait_ack
  keeps_mem_wait_acks keeps_mem_buffered_send : keeps.

Lemma keeps_mem_fill_word cur : keeps_mem (fill_word cur).
Proof. unfold fill_word. repeat keeps_step. Qed.

Lemma keeps_mem_fill_loop fuel page_addr page_size :
  forall cur, keeps_mem (fill_loop fuel page_addr page_size cur).
Proof.
  induction fuel as [|fuel IH]; intros cur; simpl;
    (apply keeps_mem_if; [|auto with keeps]).
  - auto with keeps.
  - apply keeps_mem_bind; [apply keeps_mem_fill_word | intros _; apply IH].
Qed.

Lemma keeps_mem_erase_page a : keeps_mem (erase_page a).
Proof. unfold erase_page. repeat keeps_step. Qed.

Lemma keeps_mem_write_page a : keeps_mem (write_page a).
Proof. unfold write_page. repeat keeps_step. Qed.

Lemma keeps_mem_program_page fuel page_size fa pa k :
  keeps_mem k -> keeps_mem (program_page fuel page_size fa pa k).
Proof.
  intros Hk. unfold program_page, fill_page_buf.
  apply keeps_mem_bind; [apply keeps_mem_fill_loop|]. intros r1.
  apply keeps_mem_if; [auto with keeps|].
  apply keeps_mem_bind; [apply keeps_mem_erase_page|]. intros r2.
  apply keeps_mem_if; [auto with keeps|].
  apply keeps_mem_bind; [apply keeps_mem_write_page|]. intros r3.
  apply keeps_mem_if; [auto with keeps | exact Hk].
Qed.

Lemma writes_only_store8 S i v :
  In (Z.to_nat i) S -> writes_only S (store8 i v).
Proof.
  intros Hi w r w' E. unfold store8 in E.
  destruct ((i <? 0) || (Z.of_nat (length (buf (mem w))) <=? i)).
  - inversion E; subst. apply same_except_refl.
  - inversion E; subst; simpl. repeat split.
    + apply length_insert.
    + intros j Hj. apply list_lookup_insert_ne. intros Heq. now subst j.
Qed.

(** ** The redirection of the reset vector *)

Lemma relocate_valid fuel page_size k w b0 b1 :
  flash_image (mem w) ->
  buf (mem w) !! 0%nat = Some b0 ->
  buf (mem w) !! 1%nat = Some b1 ->
  is_rjmp (word16 b0 b1) ->
  relocate_reset_vector fuel page_size k w
  = program_page fuel page_size
      (u16 (vrst_vec_addr (mem w) - page_size + 2))
      (u16 (vrst_vec_addr (mem w) - page_size + 2)) k
      (with_mem w (redirect (mem w) (word16 b0 b1))).
Proof.
  intros (Hd & Hl & Hs) H0 H1 Hj. unfold BOOTLOADER_SIZE in Hs.
  assert (Hv : vrst_vec_addr (mem w) = size (mem w) - 66).
  { apply vrst_vec_addr_eq. unfold BOOTLOADER_SIZE. lia. }
  unfold relocate_reset_vector. cbv zeta.
  bind_step ltac:(apply load8_in; [lia | exact H0]).
  bind_step ltac:(apply load8_in; [lia | exact H1]).
  fold (word16 b0 b1). unfold is_rjmp in Hj. rewrite Hj, Z.eqb_refl.
  cbn [negb].
  bind_step ltac:(apply store8_in; lia).
  bind_step ltac:(apply store8_in; simpl; rewrite length_insert; lia).
  bind_step ltac:(apply store8_in; simpl; rewrite !length_insert; lia).
  bind_step ltac:(apply store8_in; simpl; rewrite !length_insert; lia).
  reflexivity.
Qed.

Lemma relocate_writes fuel page_size k w r w' :
  keeps_mem k ->
  relocate_reset_vector fuel page_size k w = (r, w') ->
  same_except [0%nat; 1%nat; Z.to_nat (vrst_vec_addr (mem w));
               Z.to_nat (vrst_vec_addr (mem w) + 1)] (mem w) (mem w').
Proof.
  intros Hk E. unfold relocate_reset_vector in E. cbv zeta in E.
  revert E. generalize (vrst_vec_addr (mem w)) at 1 2 3 4 5 6.
  intros v E.
  revert w r w' E.
  change (writes_only [0%nat; 1%nat; Z.to_nat v; Z.to_nat (v + 1)]
    (b0 <- load8 0 ;;
     b1 <- load8 1 ;;
     (if negb (Z.land (u16 (Z.lor b0 (Z.shiftl b1 8))) 61440 =? 49152)
      then stop (Exit NoResetVector)
      else
        store8 0 reset_vec_lo ;;;
        store8 1 reset_vec_hi ;;;
        store8 v (Z.land (u16 (new_appstart (u16 (Z.lor b0 (Z.shiftl b1 8))))) 255) ;;;
        store8 (v + 1) (Z.shiftr (u16 (new_appstart (u16 (Z.lor b0 (Z.shiftl b1 8))))) 8) ;;;
        program_page fuel page_size (u16 (v - page_size + 2))
                     (u16 (v - page_size + 2)) k))).
  apply writes_only_bind; [apply keeps_writes_only, keeps_mem_load8|].
  intros b0.
  apply writes_only_bind; [apply keeps_writes_only, keeps_mem_load8|].
  intros b1.
  destruct (negb _); [apply keeps_writes_only, keeps_mem_stop|].
  apply writes_only_bind; [apply writes_only_store8; simpl; auto|]. intros _.
  apply writes_only_bind; [apply writes_only_store8; simpl; auto|]. intros _.
  apply writes_only_bind; [apply writes_only_store8; simpl; auto|]. intros _.
  apply writes_only_bind; [apply writes_only_store8; simpl; auto|]. intros _.
  apply keeps_writes_only, keeps_mem_program_page, Hk.
Qed.

(** a call at address 0 that finds a jump leaves the image redirected *)
Lemma paged_write_zero_mem fuel page_size num_bytes w b0 b1 r w' :
  flash_image (mem w) ->
  buf (mem w) !! 0%nat = Some b0 ->
  buf (mem w) !! 1%nat = Some b1 ->
  is_rjmp (word16 b0 b1) ->
  picoboot_paged_write fuel page_size 0 num_bytes w = (r, w') ->
  mem w' = redirect (mem w) (word16 b0 b1).
Proof.
  intros Hf H0 H1 Hj E.
  pose proof Hf as (Hd & Hl & Hs). unfold BOOTLOADER_SIZE in Hs.
  assert (Hv : vrst_vec_addr (mem w) = size (mem w) - 66).
  { apply vrst_vec_addr_eq. unfold BOOTLOADER_SIZE. lia. }
  unfold picoboot_paged_write in E. rewrite flash_eqb in E by assumption.
  destruct (vrst_vec_addr (mem w) <=? 0) eqn:E1;
    [apply Z.leb_le in E1; lia|].
  pose proof (u32_nonneg (vrst_vec_addr (mem w) - page_size)).
  destruct (u32 (vrst_vec_addr (mem w) - page_size) <? 0) eqn:E2;
    [apply Z.ltb_lt in E2; lia|].
  change (0 =? 0) with true in E. cbv iota in E.
  rewrite (relocate_valid _ _ _ _ b0 b1) in E by assumption.
  apply keeps_mem_program_page in E;
    [|apply keeps_mem_program_page, keeps_mem_ret].
  exact E.
Qed.

(** the four bytes of a redirected image *)
Lemma redirect_lookups m wd :
  flash_image m ->
  let a := u16 (new_appstart wd) in
  buf (redirect m wd) !! 0%nat = Some 223 /\
  buf (redirect m wd) !! 1%nat = Some 207 /\
  buf (redirect m wd) !! Z.to_nat (size m - 66)
    = Some (u8 (Z.land a 255)) /\
  buf (redirect m wd) !! Z.to_nat (size m - 65)
    = Some (u8 (Z.shiftr a 8)).
Proof.
  intros (Hd & Hl & Hs) a. unfold BOOTLOADER_SIZE in Hs.
  assert (Hv : vrst_vec_addr m = size m - 66).
  { apply vrst_vec_addr_eq. unfold BOOTLOADER_SIZE. lia. }
  unfold redirect. cbn [buf]. rewrite Hv. fold a.
  replace (size m - 66 + 1) with (size m - 65) by lia.
  change (u8 reset_vec_lo) with 223. change (u8 reset_vec_hi) with 207.
  repeat split.
  - rewrite !list_lookup_insert_ne by lia.
    apply list_lookup_insert_eq. lia.
  - rewrite !list_lookup_insert_ne by lia.
    apply list_lookup_insert_eq. rewrite length_insert. lia.
  - rewrite list_lookup_insert_ne by lia.
    apply list_lookup_insert_eq. rewrite !length_insert. lia.
  - apply list_lookup_insert_eq. rewrite !length_insert. lia.
Qed.

(** C10: whatever the outcome of a paged write, the image differs from the
    one before the call at most at the offsets 0, 1, [size - 66] and
    [size - 65] (its length, its size and its class are the same), and a
    call whose start address is not 0 leaves the whole image as it was.
    A call at address 0 on a flash image with a jump at the reset vector
    does store the four bytes: afterwards the offsets 0 and 1 hold 0xdf
    and 0xcf, and the offsets [size - 66] and [size - 65] hold the low and
    the high byte of the new jump. *)
Theorem paged_write_image_frame :
  forall fuel page_size addr num_bytes w r w',
    BOOTLOADER_SIZE <= size (mem w) < 65536 + BOOTLOADER_SIZE ->
    picoboot_paged_write fuel page_size addr num_bytes w = (r, w') ->
    (addr <> 0 -> mem w' = mem w) /\
    same_except [0%nat; 1%nat;
                 Z.to_nat (size (mem w) - 66); Z.to_nat (size (mem w) - 65)]
                (mem w) (mem w') /\
    (addr = 0 -> flash_image (mem w) ->
     forall b0 b1,
       buf (mem w) !! 0%nat = Some b0 ->
       buf (mem w) !! 1%nat = Some b1 ->
       is_rjmp (word16 b0 b1) ->
       let appstart := u16 (new_appstart (word16 b0 b1)) in
       buf (mem w') !! 0%nat = Some 223 /\
       buf (mem w') !! 1%nat = Some 207 /\
       buf (mem w') !! Z.to_nat (size (mem w) - 66)
       = Some (u8 (Z.land appstart 255)) /\
       buf (mem w') !! Z.to_nat (size (mem w) - 65)
       = Some (u8 (Z.shiftr appstart 8))).
Proof.
  intros fuel page_size addr num_bytes w r w' Hs E.
  assert (Hstores : addr = 0 -> flash_image (mem w) ->
            forall b0 b1,
              buf (mem w) !! 0%nat = Some b0 ->
              buf (mem w) !! 1%nat = Some b1 ->
              is_rjmp (word16 b0 b1) ->
              let appstart := u16 (new_appstart (word16 b0 b1)) in
              buf (mem w') !! 0%nat = Some 223 /\
              buf (mem w') !! 1%nat = Some 207 /\
              buf (mem w') !! Z.to_nat (size (mem w) - 66)
              = Some (u8 (Z.land appstart 255)) /\
              buf (mem w') !! Z.to_nat (size (mem w) - 65)
              = Some (u8 (Z.shiftr appstart 8))).
  { intros Ha Hf b0 b1 H0 H1 Hj. subst addr.
    rewrite (paged_write_zero_mem _ _ _ _ _ _ _ _ Hf H0 H1 Hj E).
    exact (redirect_lookups (mem w) (word16 b0 b1) Hf). }
  cut ((addr <> 0 -> mem w' = mem w) /\
       same_except [0%nat; 1%nat; Z.to_nat (size (mem w) - 66);
                    Z.to_nat (size (mem w) - 65)] (mem w) (mem w')).
  { intros [Hkeep Hframe]. exact (conj Hkeep (conj Hframe Hstores)). }
  clear Hstores.
  pose proof (vrst_vec_addr_eq _ Hs) as Hv. unfold BOOTLOADER_SIZE in Hv.
  assert (Hpage : keeps_mem
            (program_page fuel page_size (u16 addr) (s32 addr)
                          (ret (s32 num_bytes))))
    by (apply keeps_mem_program_page, keeps_mem_ret).
  unfold picoboot_paged_write in E.
  destruct (negb (String.eqb (desc (mem w)) "flash"));
    [inversion E; subst; split; [reflexivity | apply same_except_refl]|].
  destruct (vrst_vec_addr (mem w) <=? addr);
    [inversion E; subst; split; [reflexivity | apply same_except_refl]|].
  destruct (u32 (vrst_vec_addr (mem w) - page_size) <? addr);
    [inversion E; subst; split; [reflexivity | apply same_except_refl]|].
  destruct (addr =? 0) eqn:E0.
  - apply Z.eqb_eq in E0. split; [intros; contradiction|].
    apply relocate_writes in E; [|exact Hpage].
    rewrite Hv in E.
    replace (size (mem w) - 66 + 1) with (size (mem w) - 65) in E by lia.
    exact E.
  - apply Hpage in E. rewrite E. split; [reflexivity | apply same_except_refl].
Qed.

(** ** The new jump *)

Lemma rjmp_add k : 0 <= k < 4096 -> rjmp k = 49152 + k.
Proof.
  intros Hk. unfold rjmp.
  assert (H : forallb (fun n => Z.lor 49152 (Z.of_nat n)
                                =? 49152 + Z.of_nat n)
                      (seq 0 4096) = true) by (vm_compute; reflexivity).
  rewrite forallb_forall in H.
  specialize (H (Z.to_nat k)). rewrite Z2Nat.id in H by lia.
  apply Z.eqb_eq, H, in_seq. lia.
Qed.

Lemma new_appstart_rjmp wd :
  new_appstart wd = rjmp ((rjmp_offset wd + 33) mod 4096).
Proof.
  unfold new_appstart, rjmp, rjmp_offset.
  change (BOOTLOADER_SIZE / 2) with 33.
  change 4095 with (Z.ones 12). rewrite (Z.land_ones (_ + 33)) by lia.
  reflexivity.
Qed.

Lemma rjmp_range k : 0 <= k < 4096 -> 49152 <= rjmp k < 53248.
Proof. intros H. rewrite rjmp_add by assumption. lia. Qed.

Lemma low_byte x : 0 <= x -> u8 (Z.land x 255) = x mod 256.
Proof.
  intros H. change 255 with (Z.ones 8). rewrite Z.land_ones by lia.
  change (2 ^ 8) with 256. apply u8_small. apply Z.mod_pos_bound. lia.
Qed.

Lemma high_byte x : 0 <= x < 65536 -> u8 (Z.shiftr x 8) = x / 256.
Proof.
  intros H. rewrite Z.shiftr_div_pow2 by lia. change (2 ^ 8) with 256.
  apply u8_small. split; [apply Z.div_pos; lia|].
  apply Z.div_lt_upper_bound; lia.
Qed.

(** C2: on a flash image whose first two bytes are an [rjmp] with offset
    [T], a paged write at address 0, whatever its outcome, leaves 0xdf 0xcf
    in the first two bytes and the word [0xC000 | ((T + 33) mod 4096)], low
    byte first, at the offsets [size - 66] and [size - 65]. *)
Theorem paged_write_redirects_reset_vector :
  forall fuel page_size num_bytes w b0 b1 r w',
    flash_image (mem w) ->
    buf (mem w) !! 0%nat = Some b0 ->
    buf (mem w) !! 1%nat = Some b1 ->
    is_rjmp (word16 b0 b1) ->
    picoboot_paged_write fuel page_size 0 num_bytes w = (r, w') ->
    let T := rjmp_offset (word16 b0 b1) in
    let V := Z.lor 49152 ((T + 33) mod 4096) in
    buf (mem w') !! 0%nat = Some 223 /\
    buf (mem w') !! 1%nat = Some 207 /\
    buf (mem w') !! Z.to_nat (size (mem w) - 66) = Some (V mod 256) /\
    buf (mem w') !! Z.to_nat (size (mem w) - 65) = Some (V / 256).
Proof.
  intros fuel page_size num_bytes w b0 b1 r w' Hf H0 H1 Hj E T V.
  pose proof Hf as (Hd & Hl & Hs). unfold BOOTLOADER_SIZE in Hs.
  assert (Hv : vrst_vec_addr (mem w) = size (mem w) - 66).
  { apply vrst_vec_addr_eq. unfold BOOTLOADER_SIZE. lia. }
  unfold picoboot_paged_write in E. rewrite flash_eqb in E by assumption.
  destruct (vrst_vec_addr (mem w) <=? 0) eqn:E1; [lia|].
  pose proof (u32_nonneg (vrst_vec_addr (mem w) - page_size)).
  destruct (u32 (vrst_vec_addr (mem w) - page_size) <? 0) eqn:E2; [lia|].
  change (0 =? 0) with true in E. cbv iota in E.
  rewrite (relocate_valid _ _ _ _ b0 b1) in E by assumption.
  apply keeps_mem_program_page in E;
    [|apply keeps_mem_program_page, keeps_mem_ret].
  rewrite E. unfold with_mem, redirect. simpl. rewrite Hv.
  replace (size (mem w) - 66 + 1) with (size (mem w) - 65) by lia.
  assert (HV : 49152 <= V < 53248).
  { apply (rjmp_range ((T + 33) mod 4096)). apply Z.mod_pos_bound. lia. }
  assert (Hnew : u16 (new_appstart (word16 b0 b1)) = V).
  { rewrite new_appstart_rjmp. apply u16_small. fold T. fold V in HV |- *.
    unfold rjmp. fold V. lia. }
  rewrite Hnew. rewrite low_byte, high_byte by lia.
  change (u8 reset_vec_lo) with 223. change (u8 reset_vec_hi) with 207.
  assert (Hlen : (2 <= length (buf (mem w)))%nat) by lia.
  repeat split.
  - rewrite !list_lookup_insert_ne by lia.
    apply list_lookup_insert_eq. lia.
  - rewrite !list_lookup_insert_ne by lia.
    apply list_lookup_insert_eq. rewrite length_insert. lia.
  - rewrite list_lookup_insert_ne by lia.
    apply list_lookup_insert_eq. rewrite !length_insert. lia.
  - apply list_lookup_insert_eq. rewrite !length_insert. lia.
Qed.

(** ** The frame pipeline *)

Lemma wire_app a b : wire (a ++ b) = wire a ++ wire b.
Proof. unfold wire. apply flat_map_app. Qed.

Lemma wire_length frs : length (wire frs) = (4 * length frs)%nat.
Proof. induction frs as [|fr frs IH]; simpl; lia. Qed.

Lemma tx_bytes_app a b : tx_bytes (a ++ b) = tx_bytes a ++ tx_bytes b.
Proof.
  induction a as [|[bs|r] a IH]; simpl; [reflexivity| |assumption].
  now rewrite IH, app_assoc.
Qed.

Lemma tx_bytes_acks n r : tx_bytes (repeat (Rx r) n) = [].
Proof. induction n; simpl; auto. Qed.

Lemma tx_bytes_flush_log wn : tx_bytes (flush_log wn) = wire wn.
Proof.
  unfold flush_log.
  change (wire wn ++ tx_bytes (repeat (Rx (Some 0)) (Z.to_nat MAX_FRAMES))
          = wire wn).
  rewrite tx_bytes_acks. apply app_nil_r.
Qed.

(** *** One acknowledgement loop *)

Lemma wait_ack_good w rest :
  line w = Some 0 :: rest ->
  picoboot_wait_ack w
  = (Val 0, mk_world (mem w) (f w) (win w) rest (log w ++ [Rx (Some 0)])).
Proof.
  intros H. unfold picoboot_wait_ack, bind, serial_recv1. now rewrite H.
Qed.

Lemma wait_acks_good n : forall w rest,
  line w = repeat (Some 0) n ++ rest ->
  wait_acks n w
  = (Val 0, mk_world (mem w) (f w) (win w) rest
                     (log w ++ repeat (Rx (Some 0)) n)).
Proof.
  induction n as [|n IH]; intros w rest H; simpl in *.
  - rewrite app_nil_r. destruct w; simpl in *; subst; reflexivity.
  - rewrite (bind_val _ _ _ _ _ (wait_ack_good _ _ H)).
    change (negb (0 =? 0)) with false. cbv iota.
    rewrite (IH _ rest) by reflexivity. simpl.
    now rewrite <- app_assoc.
Qed.

Lemma wait_ack_run w :
  picoboot_wait_ack w
  = (match next_response (line w) with
     | None => Val (-1)
     | Some b => if b =? 0 then Val 0 else Halt (Exit ProtocolError)
     end,
     mk_world (mem w) (f w) (win w) (List.tl (line w))
              (log w ++ [Rx (next_response (line w))])).
Proof.
  unfold picoboot_wait_ack, bind, serial_recv1.
  destruct (line w) as [|[b|] rest]; simpl; try reflexivity.
  destruct (b =? 0); reflexivity.
Qed.

(** The loop stops at the first read that does not yield 0x00: with [-1]
    when the read fails, with [exit] when it yields another byte. *)
Lemma wait_acks_abort n : forall k w rest,
  (k < n)%nat -> next_response rest <> Some 0 ->
  line w = repeat (Some 0) k ++ rest ->
  wait_acks n w
  = (match next_response rest with
     | None => Val (-1)
     | Some _ => Halt (Exit ProtocolError)
     end,
     mk_world (mem w) (f w) (win w) (List.tl rest)
              (log w ++ repeat (Rx (Some 0)) k ++ [Rx (next_response rest)])).
Proof.
  induction n as [|n IH]; intros k w rest Hk Hbad H; [lia|].
  destruct k as [|k]; simpl in H |- *.
  - unfold bind. rewrite wait_ack_run, H.
    destruct (next_response rest) as [b|]; [|reflexivity].
    destruct (b =? 0) eqn:E; [|reflexivity].
    apply Z.eqb_eq in E. congruence.
  - rewrite (bind_val _ _ _ _ _ (wait_ack_good _ _ H)).
    change (negb (0 =? 0)) with false. cbv iota.
    rewrite (IH k _ rest) by (simpl; auto; lia). simpl.
    now rewrite <- app_assoc.
Qed.

(** *** One buffered send *)

Lemma buffered_send_buffers w :
  (length (win w) < 28)%nat ->
  picoboot_buffered_send w
  = (Val 0, mk_world (mem w) (sealed (f w))
                     (win w ++ frame_bytes (sealed (f w)))
                     (line w) (log w)).
Proof.
  intros H. unfold picoboot_buffered_send, bind, set_check.
  cbn [win f mem line log]. unfold MAX_FRAMES, sizeof_frame.
  destruct (8 * 4 <? Z.of_nat (length (win w)) + 4) eqn:E1; [lia|].
  cbv zeta. fold (sealed (f w)).
  destruct (Z.of_nat (length (win w ++ frame_bytes (sealed (f w)))) =? 8 * 4)
    eqn:E2; [|reflexivity].
  apply Z.eqb_eq in E2. rewrite length_app in E2.
  change (length (frame_bytes (sealed (f w)))) with 4%nat in E2. lia.
Qed.

Lemma buffered_send_flushes w :
  length (win w) = 28%nat ->
  picoboot_buffered_send w
  = wait_acks (Z.to_nat MAX_FRAMES)
      (mk_world (mem w) (sealed (f w)) [] (line w)
                (log w ++ [Tx (win w ++ frame_bytes (sealed (f w)))])).
Proof.
  intros H. unfold picoboot_buffered_send, bind, set_check.
  cbn [win f mem line log]. unfold sizeof_frame.
  change (MAX_FRAMES * 4) with 32.
  destruct (32 <? Z.of_nat (length (win w)) + 4) eqn:E1; [lia|].
  cbv zeta. fold (sealed (f w)).
  destruct (Z.of_nat (length (win w ++ frame_bytes (sealed (f w)))) =? 32)
    eqn:E2.
  - reflexivity.
  - apply Z.eqb_neq in E2. rewrite length_app in E2.
    change (length (frame_bytes (sealed (f w)))) with 4%nat in E2. lia.
Qed.

(** *** A byte other than 0x00 ends the run *)

Lemma zero_acks_nil : zero_acks [].
Proof. intros b []. Qed.

Lemma zero_acks_app a b : zero_acks a -> zero_acks b -> zero_acks (a ++ b).
Proof. intros Ha Hb x Hx. apply in_app_or in Hx. destruct Hx; auto. Qed.

(** a computation that leaves the log as it is *)
Lemma silent_exits_on_bad_ack {A} (c : M A) :
  (forall w r w', c w = (r, w') -> log w' = log w) -> exits_on_bad_ack c.
Proof.
  intros H w r w' E. exists []. rewrite app_nil_r.
  split; [eauto | left; apply zero_acks_nil].
Qed.

Lemma exits_on_bad_ack_bind {A B} (c : M A) (k : A -> M B) :
  exits_on_bad_ack c -> (forall a, exits_on_bad_ack (k a)) ->
  exits_on_bad_ack (bind c k).
Proof.
  intros Hc Hk w r w' E. unfold bind in E.
  destruct (c w) as [[a|h] w1] eqn:E1.
  - destruct (Hc _ _ _ E1) as (l1 & Hl1 & [H1|H1]); [|discriminate].
    destruct (Hk _ _ _ _ E) as (l2 & Hl2 & H2).
    exists (l1 ++ l2). rewrite Hl2, Hl1, app_assoc. split; [reflexivity|].
    destruct H2 as [H2|H2]; [left; now apply zero_acks_app | now right].
  - inversion E; subst.
    destruct (Hc _ _ _ E1) as (l1 & Hl1 & [H1|H1]).
    + exists l1. split; [assumption | now left].
    + exists l1. split; [assumption | right]. congruence.
Qed.

Lemma exits_on_bad_ack_if {A} (b : bool) (c1 c2 : M A) :
  exits_on_bad_ack c1 -> exits_on_bad_ack c2 ->
  exits_on_bad_ack (if b then c1 else c2).
Proof. destruct b; auto. Qed.

Lemma exits_on_bad_ack_ret {A} (a : A) : exits_on_bad_ack (ret a).
Proof. apply silent_exits_on_bad_ack. intros w r w' E. now inversion E. Qed.

Lemma exits_on_bad_ack_stop {A} h : exits_on_bad_ack (@stop A h).
Proof. apply silent_exits_on_bad_ack. intros w r w' E. now inversion E. Qed.

Lemma exits_on_bad_ack_set_f lo hi cmd : exits_on_bad_ack (set_f lo hi cmd).
Proof. apply silent_exits_on_bad_ack. intros w r w' E. now inversion E. Qed.

Lemma exits_on_bad_ack_set_check : exits_on_bad_ack set_check.
Proof. apply silent_exits_on_bad_ack. intros w r w' E. now inversion E. Qed.

Lemma exits_on_bad_ack_load8 i : exits_on_bad_ack (load8 i).
Proof.
  apply silent_exits_on_bad_ack. intros w r w' E. unfold load8 in E.
  destruct (i <? 0); [|destruct (buf (mem w) !! Z.to_nat i)];
    now inversion E.
Qed.

Lemma exits_on_bad_ack_store8 i v : exits_on_bad_ack (store8 i v).
Proof.
  apply silent_exits_on_bad_ack. intros w r w' E. unfold store8 in E.
  destruct ((i <? 0) || (Z.of_nat (length (buf (mem w))) <=? i));
    now inversion E.
Qed.

Lemma exits_on_bad_ack_serial_send bs : exits_on_bad_ack (serial_send bs).
Proof.
  intros w r w' E. inversion E; subst; simpl. exists [Tx bs].
  split; [reflexivity | left]. intros b [H|[]]. discriminate.
Qed.

Lemma exits_on_bad_ack_wait_ack : exits_on_bad_ack picoboot_wait_ack.
Proof.
  intros w r w' E. rewrite wait_ack_run in E. inversion E; subst; simpl.
  exists [Rx (next_response (line w))]. split; [reflexivity|].
  destruct (next_response (line w)) as [b|].
  - destruct (b =? 0) eqn:Eb; [left | now right].
    apply Z.eqb_eq in Eb. intros x [H|[]]. congruence.
  - left. intros x [H|[]]. discriminate.
Qed.

Create HintDb acks.
#[local] Hint Resolve exits_on_bad_ack_ret exits_on_bad_ack_stop
  exits_on_bad_ack_set_f exits_on_bad_ack_set_check exits_on_bad_ack_load8
  exits_on_bad_ack_store8 exits_on_bad_ack_serial_send
  exits_on_bad_ack_wait_ack : acks.

Ltac acks_step :=
  first [ solve [auto with acks]
        | apply exits_on_bad_ack_bind; [|intros ?]
        | apply exits_on_bad_ack_if ].

Lemma exits_on_bad_ack_wait_acks n : exits_on_bad_ack (wait_acks n).
Proof.
  induction n as [|n IH]; simpl; [auto with acks|].
  apply exits_on_bad_ack_bind; [auto with acks|].
  intros a. apply exits_on_bad_ack_if; auto with acks.
Qed.

Lemma exits_on_bad_ack_send_frame : exits_on_bad_ack picoboot_send_frame.
Proof.
  unfold picoboot_send_frame.
  apply exits_on_bad_ack_bind; [auto with acks|].
  intros _ w r w' E. eapply exits_on_bad_ack_serial_send. exact E.
Qed.

Lemma exits_on_bad_ack_buffered_send : exits_on_bad_ack picoboot_buffered_send.
Proof.
  unfold picoboot_buffered_send.
  apply exits_on_bad_ack_bind; [auto with acks|].
  intros _ w r w' E.
  destruct (MAX_FRAMES * sizeof_frame
            <? Z.of_nat (length (win w)) + sizeof_frame).
  { eapply (@exits_on_bad_ack_stop Z Undefined). exact E. }
  destruct (Z.of_nat (length (win w ++ frame_bytes (f w)))
            =? MAX_FRAMES * sizeof_frame).
  - unfold bind, serial_send in E. cbv beta iota in E.
    apply exits_on_bad_ack_wait_acks in E. cbn [log] in E.
    destruct E as (l & Hl & H).
    exists (Tx (win w ++ frame_bytes (f w)) :: l).
    rewrite Hl, <- app_assoc. split; [reflexivity|].
    destruct H as [H|H]; [left | now right].
    intros b [Hb|Hb]; [discriminate | auto].
  - eapply (silent_exits_on_bad_ack
              (fun w => (Val 0, mk_world (mem w) (f w)
                                  (win w ++ frame_bytes (f w))
                                  (line w) (log w)))); [|exact E].
    intros w0 r0 w0' E0. now inversion E0.
Qed.

#[local] Hint Resolve exits_on_bad_ack_wait_acks exits_on_bad_ack_send_frame
  exits_on_bad_ack_buffered_send : acks.

Lemma exits_on_bad_ack_fill_loop fuel page_addr page_size :
  forall cur, exits_on_bad_ack (fill_loop fuel page_addr page_size cur).
Proof.
  induction fuel as [|fuel IH]; intros cur; simpl;
    (apply exits_on_bad_ack_if; [|auto with acks]).
  - auto with acks.
  - apply exits_on_bad_ack_bind; [|intros _; apply IH].
    unfold fill_word. repeat acks_step.
Qed.

Lemma exits_on_bad_ack_program_page fuel page_size fa pa k :
  exits_on_bad_ack k ->
  exits_on_bad_ack (program_page fuel page_size fa pa k).
Proof.
  intros Hk. unfold program_page, fill_page_buf.
  apply exits_on_bad_ack_bind; [apply exits_on_bad_ack_fill_loop|].
  intros r1. apply exits_on_bad_ack_if; [auto with acks|].
  apply exits_on_bad_ack_bind; [unfold erase_page; repeat acks_step|].
  intros r2. apply exits_on_bad_ack_if; [auto with acks|].
  apply exits_on_bad_ack_bind; [unfold write_page; repeat acks_step|].
  intros r3. apply exits_on_bad_ack_if; [auto with acks | exact Hk].
Qed.

Lemma exits_on_bad_ack_paged_write fuel page_size addr num_bytes :
  exits_on_bad_ack (picoboot_paged_write fuel page_size addr num_bytes).
Proof.
  assert (Hpage : exits_on_bad_ack
            (program_page fuel page_size (u16 addr) (s32 addr)
                          (ret (s32 num_bytes))))
    by (apply exits_on_bad_ack_program_page; auto with acks).
  intros w r w' E. unfold picoboot_paged_write in E.
  destruct (negb (String.eqb (desc (mem w)) "flash"));
    [eapply (@exits_on_bad_ack_ret Z (-1)); exact E|].
  destruct (vrst_vec_addr (mem w) <=? addr);
    [eapply (@exits_on_bad_ack_stop Z (Exit BootloaderWrite)); exact E|].
  destruct (u32 (vrst_vec_addr (mem w) - page_size) <? addr);
    [eapply (@exits_on_bad_ack_ret Z (s32 num_bytes)); exact E|].
  destruct (addr =? 0); [|eapply Hpage; exact E].
  unfold relocate_reset_vector in E. cbv zeta in E.
  revert E. generalize (vrst_vec_addr (mem w)). intros v E.
  revert E. apply exits_on_bad_ack_bind; [auto with acks|]. intros b0.
  apply exits_on_bad_ack_bind; [auto with acks|]. intros b1.
  apply exits_on_bad_ack_if; [auto with acks|].
  repeat (apply exits_on_bad_ack_bind; [auto with acks | intros _]).
  apply exits_on_bad_ack_program_page, Hpage.
Qed.

(** C6 (amended): when an acknowledgement read of a window flush does not
    yield 0x00, the flush stops there, no further acknowledgement being
    read: if the read failed, [picoboot_buffered_send] returns -1; if it
    yielded another byte, the run exits with the protocol diagnostic. And
    in any run of the paged write, either every byte received was 0x00 or
    the run ended in that exit. *)
Theorem flush_stops_at_failed_ack :
  (forall w k rest,
      length (win w) = 28%nat ->
      (k < 8)%nat ->
      next_response rest <> Some 0 ->
      line w = repeat (Some 0) k ++ rest ->
      picoboot_buffered_send w
      = (match next_response rest with
         | None => Val (-1)
         | Some _ => Halt (Exit ProtocolError)
         end,
         mk_world (mem w) (sealed (f w)) [] (List.tl rest)
           (log w ++ [Tx (win w ++ frame_bytes (sealed (f w)))]
                  ++ repeat (Rx (Some 0)) k
                  ++ [Rx (next_response rest)]))) /\
  (forall fuel page_size addr num_bytes w r w',
      picoboot_paged_write fuel page_size addr num_bytes w = (r, w') ->
      exists l, log w' = log w ++ l /\
                (zero_acks l \/ r = Halt (Exit ProtocolError))).
Proof.
  split.
  - intros w k rest Hw Hk Hbad Hline.
    rewrite buffered_send_flushes by assumption.
    rewrite (wait_acks_abort _ k _ rest) by (simpl; auto).
    cbn [mem f win line log]. now rewrite <- app_assoc.
  - intros fuel page_size addr num_bytes w r w' E.
    eapply exits_on_bad_ack_paged_write. exact E.
Qed.

(** *** Sequences of buffered sends *)

Lemma submit_buffers fr w :
  (length (win w) < 28)%nat ->
  submit fr w
  = (Val 0, mk_world (mem w) (sealed fr) (win w ++ frame_bytes (sealed fr))
                     (line w) (log w)).
Proof.
  intros H. unfold submit, bind, set_f.
  rewrite buffered_send_buffers by exact H. reflexivity.
Qed.

Lemma submit_flushes fr w rest :
  length (win w) = 28%nat ->
  line w = repeat (Some 0) 8 ++ rest ->
  submit fr w
  = (Val 0, mk_world (mem w) (sealed fr) [] rest
                     (log w ++ Tx (win w ++ frame_bytes (sealed fr))
                            :: repeat (Rx (Some 0)) 8)).
Proof.
  intros H Hl. unfold submit, bind, set_f.
  rewrite buffered_send_flushes by exact H.
  change (Z.to_nat MAX_FRAMES) with 8%nat.
  rewrite (wait_acks_good 8 _ rest) by exact Hl.
  cbn [mem f win line log]. now rewrite <- app_assoc.
Qed.

Lemma buffered_sends_app a b w :
  buffered_sends (a ++ b) w = (buffered_sends a ;;; buffered_sends b) w.
Proof.
  revert w. induction a as [|fr a IH]; intros w; simpl.
  - reflexivity.
  - unfold bind in *. destruct (submit fr w) as [[r|h] w1]; [|reflexivity].
    apply IH.
Qed.

(** Frames that do not fill the window are only buffered. *)
Lemma buffered_sends_partial frs : forall w,
  (length (win w) + 4 * length frs < 32)%nat ->
  exists fr',
    buffered_sends frs w
    = (Val tt, mk_world (mem w) fr' (win w ++ wire frs) (line w) (log w)).
Proof.
  induction frs as [|fr frs IH]; intros w H; simpl in *.
  - exists (f w). rewrite app_nil_r. now destruct w.
  - unfold bind. rewrite submit_buffers by lia.
    destruct (IH (mk_world (mem w) (sealed fr)
                           (win w ++ frame_bytes (sealed fr))
                           (line w) (log w))) as (fr' & E).
    { cbn [win]. rewrite length_app.
      change (length (frame_bytes (sealed fr))) with 4%nat. lia. }
    exists fr'. rewrite E. cbn [mem win line log].
    now rewrite <- app_assoc.
Qed.

(** The frame that fills the window flushes it. *)
Lemma buffered_sends_window frs w rest :
  win w = [] ->
  length frs = 8%nat ->
  line w = repeat (Some 0) 8 ++ rest ->
  exists fr',
    buffered_sends frs w
    = (Val tt, mk_world (mem w) fr' [] rest (log w ++ flush_log frs)).
Proof.
  intros Hw Hn Hl.
  destruct (exists_last (l := frs)) as (front & fr & ->);
    [intros ->; discriminate|].
  rewrite length_app in Hn. simpl in Hn.
  destruct (buffered_sends_partial front w) as (fr0 & E0);
    [rewrite Hw; simpl; lia|].
  rewrite buffered_sends_app. unfold bind at 1. rewrite E0.
  simpl buffered_sends. unfold bind.
  rewrite (submit_flushes _ _ rest).
  - exists (sealed fr). cbn [mem f win line log]. rewrite Hw.
    unfold flush_log. rewrite wire_app. reflexivity.
  - cbn [win]. rewrite Hw. simpl. rewrite wire_length. lia.
  - exact Hl.
Qed.

(** Whole windows are flushed one after the other; what remains is
    buffered. *)
Lemma buffered_sends_windows wins : forall tail w rest,
  Forall (fun wn => length wn = 8%nat) wins ->
  (length tail < 8)%nat ->
  win w = [] ->
  line w = repeat (Some 0) (8 * length wins) ++ rest ->
  exists fr',
    buffered_sends (concat wins ++ tail) w
    = (Val tt, mk_world (mem w) fr' (wire tail) rest
                        (log w ++ flat_map flush_log wins)).
Proof.
  induction wins as [|wn wins IH]; intros tail w rest Hall Ht Hw Hl.
  - simpl in *. destruct (buffered_sends_partial tail w) as (fr' & E);
      [rewrite Hw; simpl; lia|].
    exists fr'. rewrite E, Hw, app_nil_r, Hl. reflexivity.
  - inversion Hall as [|? ? Hwn Hall']; subst.
    replace (8 * length (wn :: wins))%nat
      with (8 + 8 * length wins)%nat in Hl by (simpl; lia).
    rewrite repeat_app, <- app_assoc in Hl.
    destruct (buffered_sends_window wn w _ Hw Hwn Hl) as (fr1 & E1).
    simpl concat. rewrite <- app_assoc, buffered_sends_app.
    unfold bind. rewrite E1.
    destruct (IH tail (mk_world (mem w) fr1 []
                         (repeat (Some 0) (8 * length wins) ++ rest)
                         (log w ++ flush_log wn)) rest)
      as (fr' & E); auto.
    exists fr'. rewrite E. cbn [mem win line log flat_map].
    now rewrite <- app_assoc.
Qed.

(** *** Frames in flight *)

Lemma peak_in_flight_app a : forall cur b,
  peak_in_flight cur (a ++ b)
  = Z.max (peak_in_flight cur a)
          (peak_in_flight (fold_left in_flight_after a cur) b).
Proof.
  induction a as [|e a IH]; intros cur b; simpl.
  - destruct b; simpl; lia.
  - rewrite IH. lia.
Qed.

Lemma acks_in_flight n : forall cur,
  fold_left in_flight_after (repeat (Rx (Some 0)) n) cur = cur - Z.of_nat n.
Proof.
  induction n as [|n IH]; intros cur; simpl; [lia|]. rewrite IH. lia.
Qed.

Lemma acks_peak n : forall cur,
  peak_in_flight cur (repeat (Rx (Some 0)) n) = cur.
Proof.
  induction n as [|n IH]; intros cur; simpl; [reflexivity|].
  rewrite IH. lia.
Qed.

Lemma flush_log_in_flight wn cur :
  length wn = 8%nat ->
  fold_left in_flight_after (flush_log wn) cur = cur /\
  peak_in_flight cur (flush_log wn) = cur + 8.
Proof.
  intros H. unfold flush_log. change (Z.to_nat MAX_FRAMES) with 8%nat.
  cbn [fold_left peak_in_flight in_flight_after].
  rewrite wire_length, H. change (Z.of_nat (4 * 8) / sizeof_frame) with 8.
  rewrite acks_in_flight, acks_peak. lia.
Qed.

Lemma windows_in_flight wins :
  Forall (fun wn => length wn = 8%nat) wins ->
  fold_left in_flight_after (flat_map flush_log wins) 0 = 0 /\
  peak_in_flight 0 (flat_map flush_log wins) <= 8.
Proof.
  induction 1 as [|wn wins Hwn Hall IH]; [simpl; lia|].
  cbn [flat_map].
  destruct (flush_log_in_flight wn 0 Hwn) as (Hend & Hpeak).
  rewrite fold_left_app, peak_in_flight_app, Hend, Hpeak. lia.
Qed.

(** *** Windows *)

Lemma windows_aux_spec n : forall frs : list frame,
  (8 * n <= length frs)%nat ->
  concat (windows_aux n frs) = take (8 * n) frs /\
  Forall (fun wn => length wn = 8%nat) (windows_aux n frs) /\
  length (windows_aux n frs) = n.
Proof.
  induction n as [|n IH]; intros frs Hn.
  - simpl. repeat split. constructor.
  - destruct (IH (drop 8 frs)) as (Hc & Hall & Hlen);
      [rewrite length_drop; lia|].
    cbn [windows_aux concat length]. rewrite Hc, take_take_drop.
    repeat split.
    + f_equal. lia.
    + constructor; [rewrite length_take; lia | assumption].
    + now rewrite Hlen.
Qed.

(** every sequence of frames is its whole windows followed by a rest of
    less than a window *)
Lemma windows_split (frs : list frame) :
  frs = concat (windows frs) ++ leftover frs /\
  Forall (fun wn => length wn = 8%nat) (windows frs) /\
  length (windows frs) = (length frs / 8)%nat /\
  (length (leftover frs) < 8)%nat.
Proof.
  assert (Hdiv : (8 * (length frs / 8) <= length frs)%nat)
    by (apply Nat.Div0.mul_div_le).
  destruct (windows_aux_spec (length frs / 8) frs Hdiv) as (Hc & Hall & Hlen).
  unfold windows, leftover. rewrite Hc. repeat split; try assumption.
  - symmetry. apply take_drop.
  - rewrite length_drop.
    pose proof (Nat.div_mod_eq (length frs) 8).
    pose proof (Nat.mod_upper_bound (length frs) 8). lia.
Qed.

Lemma windows_whole (frs : list frame) q :
  length frs = (8 * q)%nat ->
  concat (windows frs) = frs /\ leftover frs = [] /\
  length (windows frs) = q.
Proof.
  intros Hq.
  destruct (windows_split frs) as (Heq & _ & Hlen & _).
  assert (Hd : (length frs / 8 = q)%nat).
  { rewrite Hq, Nat.mul_comm. apply Nat.div_mul. lia. }
  assert (Hl : leftover frs = []).
  { unfold leftover. apply drop_ge. rewrite Hd. lia. }
  rewrite Hl, app_nil_r in Heq. rewrite Hlen, Hd. auto.
Qed.

(** C7 (amended): a sequence of buffered frames is its whole windows of 8
    followed by fewer than 8 frames. From an empty window and on a line
    that answers every read with 0x00, the log grows by one flush per whole
    window, each a single send of the 32 bytes of its 8 frames followed by
    8 one-byte reads; the flush is part of the call that buffers the 8th
    frame of the window, and the frames after the last whole window (so
    also a 9th frame) stay in the window without any transport operation;
    at no point are more than 8 frames sent and not acknowledged. *)
Theorem buffered_sends_pipeline :
  forall frs w rest,
    win w = [] ->
    line w = repeat (Some 0) (8 * (length frs / 8)) ++ rest ->
    (exists fr',
        buffered_sends frs w
        = (Val tt, mk_world (mem w) fr' (wire (leftover frs)) rest
                            (log w ++ flat_map flush_log (windows frs)))) /\
    frs = concat (windows frs) ++ leftover frs /\
    Forall (fun wn => length wn = 8%nat) (windows frs) /\
    (length (leftover frs) < 8)%nat /\
    peak_in_flight 0 (flat_map flush_log (windows frs)) <= MAX_FRAMES.
Proof.
  intros frs w rest Hw Hl.
  destruct (windows_split frs) as (Heq & Hall & Hlen & Ht).
  repeat split; try assumption.
  - destruct (buffered_sends_windows (windows frs) (leftover frs) w rest)
      as (fr' & E); try assumption; [now rewrite Hlen|].
    exists fr'. rewrite <- Heq in E. exact E.
  - apply windows_in_flight, Hall.
Qed.

(** ** The fill step *)

Lemma fill_frames_length b n : forall cur,
  length (fill_frames b cur n) = (2 * n)%nat.
Proof. induction n as [|n IH]; intros cur; simpl; [|rewrite IH]; lia. Qed.

Lemma fill_word_sends cur w :
  0 <= cur ->
  cur + 2 <= Z.of_nat (length (buf (mem w))) ->
  fill_word cur w
  = (submit (make_frame (image_byte (buf (mem w)) cur)
                        (image_byte (buf (mem w)) (cur + 1)) 0) ;;;
     submit (make_frame (addr_lo cur) (addr_hi cur) 1) ;;;
     ret tt) w.
Proof.
  intros H0 Hlen.
  destruct (lookup_lt_is_Some_2 (buf (mem w)) (Z.to_nat cur)) as [bl Hbl];
    [lia|].
  destruct (lookup_lt_is_Some_2 (buf (mem w)) (Z.to_nat (cur + 1)))
    as [bh Hbh]; [lia|].
  unfold fill_word, image_byte. rewrite Hbl, Hbh. cbn [default].
  bind_step ltac:(apply load8_in; [lia | exact Hbl]).
  bind_step ltac:(apply load8_in; [lia | exact Hbh]).
  unfold submit, bind, set_f, ret. cbn [mem f win line log].
  cbn [make_frame sealed data_lo data_hi command].
  destruct (picoboot_buffered_send _) as [[r1|h1] w1]; [|reflexivity].
  destruct (picoboot_buffered_send _) as [[r2|h2] w2]; reflexivity.
Qed.

Lemma keeps_mem_submit fr : keeps_mem (submit fr).
Proof. unfold submit. repeat keeps_step. Qed.

(** The loop of [fill_page_buf] passes the frames of its words to the
    pipeline, one after the other, and returns 0. [n] is the number of
    turns from [cur] on; the addresses stay below 65536. *)
Lemma fill_loop_sends n : forall fuel page_addr page_size cur w,
  (n <= fuel)%nat ->
  0 <= cur ->
  cur + 2 * Z.of_nat n <= Z.of_nat (length (buf (mem w))) ->
  cur + 2 * Z.of_nat n <= 65535 ->
  u32 (page_addr + page_size) <= cur + 2 * Z.of_nat n ->
  (0 < Z.of_nat n -> cur + 2 * Z.of_nat n - 2 < u32 (page_addr + page_size)) ->
  fill_loop fuel page_addr page_size cur w
  = (buffered_sends (fill_frames (buf (mem w)) cur n) ;;; ret 0) w.
Proof.
  induction n as [|n IH]; intros fuel pa ps cur w Hf H0 Hlen Hw HB Hlast.
  - assert (E : (cur <? u32 (pa + ps)) = false) by lia.
    destruct fuel; simpl; rewrite E; reflexivity.
  - destruct fuel as [|fuel]; [lia|].
    assert (E : (cur <? u32 (pa + ps)) = true) by lia.
    simpl fill_loop. rewrite E. cbn [fill_frames buffered_sends].
    unfold bind at 1. rewrite fill_word_sends by lia.
    unfold bind, ret.
    destruct (submit _ w) as [[r1|h1] w1] eqn:E1; [|reflexivity].
    destruct (submit _ w1) as [[r2|h2] w2] eqn:E2; [|reflexivity].
    assert (Hm : mem w2 = mem w).
    { rewrite (keeps_mem_submit _ _ _ _ E2).
      apply (keeps_mem_submit _ _ _ _ E1). }
    rewrite u16_small by lia.
    rewrite (IH fuel pa ps (cur + 2) w2) by (rewrite ?Hm; lia).
    rewrite Hm. reflexivity.
Qed.

(** [fill_page_buf] on a page that lies in the image and below address
    65535 *)
Lemma fill_page_buf_sends :
  forall fuel page_size page_addr w,
    (page_words page_size <= fuel)%nat ->
    0 <= page_addr ->
    0 <= page_size ->
    page_addr + 2 * Z.of_nat (page_words page_size)
      <= Z.of_nat (length (buf (mem w))) ->
    page_addr + 2 * Z.of_nat (page_words page_size) <= 65535 ->
    fill_page_buf fuel page_size page_addr w
    = (buffered_sends
         (fill_frames (buf (mem w)) page_addr (page_words page_size)) ;;;
       ret 0) w.
Proof.
  intros fuel ps pa w Hf Ha Hp Hlen Hw. unfold fill_page_buf.
  assert (Hn : 2 * Z.of_nat (page_words ps) - 2 < ps
               <= 2 * Z.of_nat (page_words ps)).
  { unfold page_words. rewrite Z2Nat.id by (apply Z.div_pos; lia).
    pose proof (Z.div_mod (ps + 1) 2 ltac:(lia)).
    pose proof (Z.mod_pos_bound (ps + 1) 2 ltac:(lia)). lia. }
  apply fill_loop_sends; try assumption; rewrite u32_small by lia; lia.
Qed.

(** the two payload bytes of a fill-buffer frame hold the address, low
    byte first *)
Lemma addr_payload a : 0 <= a < 65536 -> addr_lo a + 256 * addr_hi a = a.
Proof.
  intros Ha. unfold addr_lo, addr_hi.
  rewrite Z.shiftr_land. change (Z.shiftr 65280 8) with (Z.ones 8).
  change 255 with (Z.ones 8). rewrite !Z.land_ones by lia.
  rewrite Z.shiftr_div_pow2 by lia. change (2 ^ 8) with 256.
  rewrite (Z.mod_small (a / 256)).
  - pose proof (Z.div_mod a 256 ltac:(lia)). lia.
  - split; [apply Z.div_pos; lia | apply Z.div_lt_upper_bound; lia].
Qed.

(** the frames of the [k]-th word of the fill step *)
Lemma fill_frames_lookup b n : forall cur k,
  (k < n)%nat ->
  fill_frames b cur n !! (2 * k)%nat
  = Some (make_frame (image_byte b (cur + 2 * Z.of_nat k))
                     (image_byte b (cur + 2 * Z.of_nat k + 1)) 0) /\
  fill_frames b cur n !! (2 * k + 1)%nat
  = Some (make_frame (addr_lo (cur + 2 * Z.of_nat k))
                     (addr_hi (cur + 2 * Z.of_nat k)) 1).
Proof.
  induction n as [|n IH]; intros cur k Hk; [lia|].
  destruct k as [|k].
  - cbn [fill_frames]. change (2 * 0)%nat with 0%nat.
    replace (cur + 2 * Z.of_nat 0) with cur by lia. split; reflexivity.
  - destruct (IH (cur + 2) k) as (H1 & H2); [lia|].
    replace (cur + 2 * Z.of_nat (S k)) with (cur + 2 + 2 * Z.of_nat k) by lia.
    replace (2 * S k)%nat with (S (S (2 * k))) by lia.
    replace (S (S (2 * k)) + 1)%nat with (S (S (2 * k + 1))) by lia.
    cbn [fill_frames]. split; assumption.
Qed.

(** C8 (amended): for a page that lies in the image and below address
    65535, the fill step goes through the page two bytes at a time and
    passes the frames of its words to the acknowledgement pipeline, one
    after the other; for the [k]-th word these are a data-stage frame
    (command 0x00) with the two bytes of the word and then a fill-buffer
    frame (command 0x01) whose 16-bit payload is the address of the word in
    the image, [page_addr + 2 k], not its offset within the page. *)
Theorem fill_page_buf_frames :
  forall fuel page_size page_addr w,
    (page_words page_size <= fuel)%nat ->
    0 <= page_addr ->
    0 <= page_size ->
    page_addr + 2 * Z.of_nat (page_words page_size)
      <= Z.of_nat (length (buf (mem w))) ->
    page_addr + 2 * Z.of_nat (page_words page_size) <= 65535 ->
    let b := buf (mem w) in
    let frames := fill_frames b page_addr (page_words page_size) in
    fill_page_buf fuel page_size page_addr w
    = (buffered_sends frames ;;; ret 0) w /\
    forall k, (k < page_words page_size)%nat ->
      let a := page_addr + 2 * Z.of_nat k in
      frames !! (2 * k)%nat
      = Some (make_frame (image_byte b a) (image_byte b (a + 1)) 0) /\
      frames !! (2 * k + 1)%nat
      = Some (make_frame (addr_lo a) (addr_hi a) 1) /\
      addr_lo a + 256 * addr_hi a = a.
Proof.
  intros fuel page_size page_addr w Hf Ha Hp Hlen Hw b frames. split.
  - now apply fill_page_buf_sends.
  - intros k Hk a.
    destruct (fill_frames_lookup b (page_words page_size) page_addr k Hk)
      as (H1 & H2).
    repeat split; try assumption.
    apply addr_payload. unfold a. lia.
Qed.

(** ** Programming one page *)

Lemma command_frame_good a cmd w rest :
  line w = Some 0 :: rest ->
  (set_f (addr_lo a) (addr_hi a) cmd ;;;
   picoboot_send_frame ;;;
   r <- picoboot_wait_ack ;;
   if negb (r =? 0) then ret (-1) else ret 0) w
  = (Val 0,
     mk_world (mem w) (make_frame (addr_lo a) (addr_hi a) cmd) (win w) rest
       (log w ++ [Tx (frame_bytes (make_frame (addr_lo a) (addr_hi a) cmd));
                  Rx (Some 0)])).
Proof.
  intros H.
  unfold bind, set_f, picoboot_send_frame, set_check, serial_send, bind.
  cbn [mem f win line log data_lo data_hi command].
  rewrite wait_ack_run. cbn [mem f win line log]. rewrite H. simpl.
  now rewrite <- app_assoc.
Qed.

Lemma erase_page_good a w rest :
  line w = Some 0 :: rest ->
  erase_page a w
  = (Val 0,
     mk_world (mem w) (make_frame (addr_lo a) (addr_hi a) 3) (win w) rest
       (log w ++ [Tx (frame_bytes (make_frame (addr_lo a) (addr_hi a) 3));
                  Rx (Some 0)])).
Proof. apply command_frame_good. Qed.

Lemma write_page_good a w rest :
  line w = Some 0 :: rest ->
  write_page a w
  = (Val 0,
     mk_world (mem w) (make_frame (addr_lo a) (addr_hi a) 5) (win w) rest
       (log w ++ [Tx (frame_bytes (make_frame (addr_lo a) (addr_hi a) 5));
                  Rx (Some 0)])).
Proof. apply command_frame_good. Qed.

Lemma tx_bytes_windows wins :
  tx_bytes (flat_map flush_log wins) = wire (concat wins).
Proof.
  induction wins as [|wn wins IH]; [reflexivity|].
  cbn [flat_map concat]. now rewrite tx_bytes_app, tx_bytes_flush_log, wire_app, IH.
Qed.

Lemma page_words_windows q : page_words (8 * Z.of_nat q) = (4 * q)%nat.
Proof.
  unfold page_words.
  replace ((8 * Z.of_nat q + 1) / 2) with (Z.of_nat (4 * q)).
  - apply Nat2Z.id.
  - apply Z.div_unique with (r := 1); lia.
Qed.

Lemma tx_bytes_page_log b a q :
  tx_bytes (page_log b a (4 * q)) = wire (page_frames b a (4 * q)).
Proof.
  unfold page_log, page_frames.
  destruct (windows_whole (fill_frames b a (4 * q)) q) as (Hc & _ & _);
    [rewrite fill_frames_length; lia|].
  rewrite tx_bytes_app, tx_bytes_windows, Hc, wire_app. reflexivity.
Qed.

(** A page of [q] whole windows, from an empty window and on a line that
    acknowledges every frame: the fill frames, the erase frame and the
    write frame go out in this order, and the window is empty again. *)
Lemma program_page_good fuel q a k w rest :
  (4 * q <= fuel)%nat ->
  0 <= a ->
  a + 8 * Z.of_nat q <= Z.of_nat (length (buf (mem w))) ->
  a + 8 * Z.of_nat q <= 65535 ->
  win w = [] ->
  line w = repeat (Some 0) (8 * q) ++ Some 0 :: Some 0 :: rest ->
  exists fr',
    program_page fuel (8 * Z.of_nat q) a a k w
    = k (mk_world (mem w) fr' [] rest
                  (log w ++ page_log (buf (mem w)) a (4 * q))).
Proof.
  intros Hf Ha Hlen Hw Hwin Hl.
  unfold program_page.
  pose proof (page_words_windows q) as Hq.
  assert (Hfill : fill_page_buf fuel (8 * Z.of_nat q) a w
                  = (buffered_sends
                       (fill_frames (buf (mem w)) a (4 * q)) ;;; ret 0) w).
  { rewrite <- Hq. apply fill_page_buf_sends; rewrite ?Hq; lia. }
  set (frs := fill_frames (buf (mem w)) a (4 * q)) in *.
  destruct (windows_whole frs q) as (Hc & _ & Hn);
    [unfold frs; rewrite fill_frames_length; lia|].
  destruct (windows_split frs) as (_ & Hall & _ & _).
  destruct (buffered_sends_windows (windows frs) [] w
              (Some 0 :: Some 0 :: rest))
    as (fr1 & E1); auto; [simpl; lia | rewrite Hn; exact Hl|].
  rewrite app_nil_r, Hc in E1.
  assert (E : fill_page_buf fuel (8 * Z.of_nat q) a w
              = (Val 0, mk_world (mem w) fr1 [] (Some 0 :: Some 0 :: rest)
                                 (log w ++ flat_map flush_log (windows frs)))).
  { rewrite Hfill. unfold bind. rewrite E1. reflexivity. }
  rewrite (bind_val _ _ _ _ _ E).
  change (negb (0 =? 0)) with false. cbv iota.
  erewrite bind_val by (apply erase_page_good; reflexivity).
  change (negb (0 =? 0)) with false. cbv iota.
  erewrite bind_val by (apply write_page_good; reflexivity).
  change (negb (0 =? 0)) with false. cbv iota.
  cbn [mem f win line log].
  exists (make_frame (addr_lo a) (addr_hi a) 5).
  unfold page_log. fold frs. rewrite <- !app_assoc. reflexivity.
Qed.

Lemma redirect_length m wd : length (buf (redirect m wd)) = length (buf m).
Proof. unfold redirect. simpl. now rewrite !length_insert. Qed.

(** C3 (amended): a paged write at address 0 on a flash image with a valid
    reset vector, whose page is a whole number of windows ([page_size] a
    multiple of 8), called with the window empty and on a line that
    acknowledges every frame, returns [num_bytes], and what it adds to the
    log is the log of the page of the virtual reset vector followed by the
    log of page zero: for each of the two pages the fill frames, then one
    erase frame, then one write frame. The window is empty again after the
    call. *)
Theorem paged_write_page_zero_order :
  forall fuel q num_bytes w b0 b1 rest,
    flash_image (mem w) ->
    buf (mem w) !! 0%nat = Some b0 ->
    buf (mem w) !! 1%nat = Some b1 ->
    is_rjmp (word16 b0 b1) ->
    8 * Z.of_nat q <= size (mem w) - 64 ->
    (4 * q <= fuel)%nat ->
    0 <= num_bytes < 2147483648 ->
    win w = [] ->
    line w = repeat (Some 0) (2 * (8 * q + 2)) ++ rest ->
    let vrst_vec_page := size (mem w) - 64 - 8 * Z.of_nat q in
    exists w',
      picoboot_paged_write fuel (8 * Z.of_nat q) 0 num_bytes w
      = (Val num_bytes, w') /\
      win w' = [] /\ line w' = rest /\
      log w' = log w ++ page_log (buf (mem w')) vrst_vec_page (4 * q)
                     ++ page_log (buf (mem w')) 0 (4 * q) /\
      tx_bytes (page_log (buf (mem w')) vrst_vec_page (4 * q)
                ++ page_log (buf (mem w')) 0 (4 * q))
      = wire (page_frames (buf (mem w')) vrst_vec_page (4 * q))
        ++ wire (page_frames (buf (mem w')) 0 (4 * q)).
Proof.
  intros fuel q num_bytes w b0 b1 rest Hf H0 H1 Hj Hps Hfuel Hn Hwin Hl vp.
  pose proof Hf as (Hd & Hlen & Hs). unfold BOOTLOADER_SIZE in Hs.
  assert (Hv : vrst_vec_addr (mem w) = size (mem w) - 66).
  { apply vrst_vec_addr_eq. unfold BOOTLOADER_SIZE. lia. }
  unfold picoboot_paged_write. rewrite flash_eqb by assumption.
  destruct (vrst_vec_addr (mem w) <=? 0) eqn:E1; [lia|].
  pose proof (u32_nonneg (vrst_vec_addr (mem w) - 8 * Z.of_nat q)).
  destruct (u32 (vrst_vec_addr (mem w) - 8 * Z.of_nat q) <? 0) eqn:E2; [lia|].
  change (0 =? 0) with true. cbv iota.
  rewrite (relocate_valid _ _ _ _ b0 b1) by assumption.
  rewrite Hv.
  replace (u16 (size (mem w) - 66 - 8 * Z.of_nat q + 2)) with vp
    by (unfold vp; rewrite u16_small; lia).
  change (u16 0) with 0. change (s32 0) with 0.
  rewrite s32_small by assumption.
  set (m' := redirect (mem w) (word16 b0 b1)).
  assert (Hlen' : Z.of_nat (length (buf m')) = size (mem w))
    by (unfold m'; now rewrite redirect_length).
  assert (Hline : line (with_mem w m')
                  = repeat (Some 0) (8 * q)
                    ++ Some 0 :: Some 0
                    :: (repeat (Some 0) (8 * q) ++ Some 0 :: Some 0 :: rest)).
  { cbn [with_mem line]. rewrite Hl.
    replace (2 * (8 * q + 2))%nat with (8 * q + (2 + (8 * q + 2)))%nat by lia.
    rewrite !repeat_app, <- !app_assoc. reflexivity. }
  destruct (program_page_good fuel q vp
              (program_page fuel (8 * Z.of_nat q) 0 0 (ret num_bytes))
              (with_mem w m')
              (repeat (Some 0) (8 * q) ++ Some 0 :: Some 0 :: rest) Hfuel)
    as (fr1 & E);
    [unfold vp; lia | cbn [with_mem mem]; unfold vp; lia | unfold vp; lia
     | exact Hwin | exact Hline |].
  rewrite E. cbn [with_mem mem log].
  match goal with
  | |- context [program_page _ _ _ _ _ ?w1] =>
      destruct (program_page_good fuel q 0 (ret num_bytes) w1 rest Hfuel)
        as (fr2 & E'); [lia | cbn [mem]; lia | lia | reflexivity
                        | reflexivity |]
  end.
  rewrite E'. cbn [mem log]. eexists. split; [reflexivity|].
  cbn [mem win line log]. repeat split.
  - now rewrite <- app_assoc.
  - now rewrite tx_bytes_app, !tx_bytes_page_log.
Qed.

(** ** Concrete runs *)

(** close a condition on concrete data by evaluation *)
Ltac concrete :=
  first [ reflexivity | lia | discriminate
        | vm_compute; lia | vm_compute; congruence
        | vm_compute; split; congruence ].

Lemma demo_flash_image : flash_image demo_mem.
Proof.
  unfold flash_image, BOOTLOADER_SIZE.
  split; [reflexivity | split; [reflexivity | simpl; lia]].
Defined.

Lemma paged_write_other_memory_witness :
  desc (mem (demo_world demo_eeprom [])) <> "flash"%string /\
  picoboot_paged_write 0 8 0 8 (demo_world demo_eeprom [])
  = (Val (-1), demo_world demo_eeprom []).
Proof.
  assert (H : desc (mem (demo_world demo_eeprom [])) <> "flash"%string)
    by discriminate.
  split; [exact H | exact (paged_write_other_memory 0 8 0 8 _ H)].
Defined.

Lemma paged_write_bootloader_region_witness :
  desc (mem (demo_world demo_mem [])) = "flash"%string /\
  BOOTLOADER_SIZE <= size (mem (demo_world demo_mem [])) /\
  size (mem (demo_world demo_mem [])) - BOOTLOADER_SIZE <= 64 /\
  picoboot_paged_write 0 8 64 8 (demo_world demo_mem [])
  = (Halt (Exit BootloaderWrite), demo_world demo_mem []).
Proof.
  assert (H1 : desc (mem (demo_world demo_mem [])) = "flash"%string)
    by reflexivity.
  assert (H2 : BOOTLOADER_SIZE <= size (mem (demo_world demo_mem [])))
    by (vm_compute; discriminate).
  assert (H3 : size (mem (demo_world demo_mem [])) - BOOTLOADER_SIZE <= 64)
    by (vm_compute; discriminate).
  split; [exact H1 | split; [exact H2 | split; [exact H3 |]]].
  exact (paged_write_bootloader_region 0 8 64 8 _ H1 H2 H3).
Defined.

Lemma paged_write_adjacent_page_witness :
  picoboot_paged_write 0 8 56 8 (demo_world demo_mem [])
  = (Val 8, demo_world demo_mem []).
Proof.
  apply (paged_write_adjacent_page 0 8 56 8 (demo_world demo_mem []));
    concrete.
Defined.

Lemma paged_write_no_reset_vector_witness :
  ~ is_rjmp (word16 12 148) /\
  picoboot_paged_write 0 8 0 8 (demo_world demo_bad_mem [])
  = (Halt (Exit NoResetVector), demo_world demo_bad_mem []).
Proof.
  assert (H : ~ is_rjmp (word16 12 148)) by (vm_compute; discriminate).
  split; [exact H|].
  apply (paged_write_no_reset_vector 0 8 8 (demo_world demo_bad_mem [])
                                     12 148);
    [ | reflexivity | reflexivity | exact H].
  unfold flash_image, BOOTLOADER_SIZE.
  split; [reflexivity | split; [reflexivity | simpl; lia]].
Defined.

Lemma demo_rjmp : is_rjmp (word16 240 195).
Proof. reflexivity. Defined.

Lemma paged_write_redirects_reset_vector_witness :
  let w' := snd (picoboot_paged_write 4 8 0 8
                   (demo_world demo_mem (repeat (Some 0) 20))) in
  buf (mem w') !! 0%nat = Some 223 /\
  buf (mem w') !! 1%nat = Some 207 /\
  buf (mem w') !! 62%nat = Some 17 /\
  buf (mem w') !! 63%nat = Some 196.
Proof.
  exact (paged_write_redirects_reset_vector 4 8 8
           (demo_world demo_mem (repeat (Some 0) 20)) 240 195 _ _
           demo_flash_image eq_refl eq_refl demo_rjmp
           (surjective_pairing _)).
Defined.

Lemma paged_write_image_frame_witness :
  let w := demo_world demo_mem (repeat (Some 0) 20) in
  let w' := snd (picoboot_paged_write 4 8 0 8 w) in
  (0 <> 0 -> mem w' = mem w) /\
  same_except [0%nat; 1%nat; 62%nat; 63%nat] (mem w) (mem w') /\
  buf (mem w') !! 0%nat = Some 223 /\
  buf (mem w') !! 1%nat = Some 207 /\
  buf (mem w') !! 62%nat = Some 17 /\
  buf (mem w') !! 63%nat = Some 196.
Proof.
  assert (Hs : BOOTLOADER_SIZE
               <= size (mem (demo_world demo_mem (repeat (Some 0) 20)))
               < 65536 + BOOTLOADER_SIZE)
    by (vm_compute; split; congruence).
  destruct (paged_write_image_frame 4 8 0 8
              (demo_world demo_mem (repeat (Some 0) 20)) _ _ Hs
              (surjective_pairing _)) as (Hkeep & Hframe & Hstores).
  exact (conj Hkeep
           (conj Hframe
              (Hstores eq_refl demo_flash_image 240 195
                       eq_refl eq_refl demo_rjmp))).
Defined.

Lemma flush_stops_at_failed_ack_witness :
  (let w := mk_world demo_mem (mk_frame 7 8 0 0)
                     (wire (take 7 nine_frames))
                     [Some 0; Some 0; None; Some 0] [] in
   picoboot_buffered_send w
   = (Val (-1),
      mk_world demo_mem (sealed (mk_frame 7 8 0 0)) [] [Some 0]
               [Tx (wire (take 7 nine_frames)
                    ++ frame_bytes (sealed (mk_frame 7 8 0 0)));
                Rx (Some 0); Rx (Some 0); Rx None])) /\
  (let w := demo_world demo_mem [Some 1; Some 0; Some 0] in
   let r := picoboot_paged_write 4 8 8 8 w in
   exists l, log (snd r) = log w ++ l /\
             (zero_acks l \/ fst r = Halt (Exit ProtocolError))).
Proof.
  split.
  - refine (proj1 flush_stops_at_failed_ack
              (mk_world demo_mem (mk_frame 7 8 0 0)
                        (wire (take 7 nine_frames))
                        [Some 0; Some 0; None; Some 0] [])
              2%nat [None; Some 0] eq_refl _ _ eq_refl).
    + lia.
    + discriminate.
  - exact (proj2 flush_stops_at_failed_ack 4%nat 8 8 8
             (demo_world demo_mem [Some 1; Some 0; Some 0]) _ _
             (surjective_pairing _)).
Defined.

Lemma buffered_sends_pipeline_witness :
  let w := demo_world demo_mem (repeat (Some 0) 8) in
  (exists fr',
      buffered_sends nine_frames w
      = (Val tt,
         mk_world demo_mem fr' (wire (leftover nine_frames)) []
                  (log w ++ flat_map flush_log (windows nine_frames)))) /\
  nine_frames = concat (windows nine_frames) ++ leftover nine_frames /\
  Forall (fun wn => length wn = 8%nat) (windows nine_frames) /\
  (length (leftover nine_frames) < 8)%nat /\
  peak_in_flight 0 (flat_map flush_log (windows nine_frames)) <= MAX_FRAMES.
Proof.
  exact (buffered_sends_pipeline nine_frames
           (demo_world demo_mem (repeat (Some 0) 8)) [] eq_refl eq_refl).
Defined.

Lemma fill_page_buf_frames_witness :
  let w := demo_world demo_mem (repeat (Some 0) 8) in
  let frames := fill_frames demo_buf 8 (page_words 8) in
  fill_page_buf 4 8 8 w = (buffered_sends frames ;;; ret 0) w /\
  forall k, (k < page_words 8)%nat ->
    let a := 8 + 2 * Z.of_nat k in
    frames !! (2 * k)%nat
    = Some (make_frame (image_byte demo_buf a) (image_byte demo_buf (a + 1)) 0) /\
    frames !! (2 * k + 1)%nat = Some (make_frame (addr_lo a) (addr_hi a) 1) /\
    addr_lo a + 256 * addr_hi a = a.
Proof.
  apply (fill_page_buf_frames 4 8 8
           (demo_world demo_mem (repeat (Some 0) 8))); concrete.
Defined.

Lemma paged_write_page_zero_order_witness :
  exists w',
    picoboot_paged_write 4 8 0 8 (demo_world demo_mem (repeat (Some 0) 20))
    = (Val 8, w') /\
    win w' = [] /\ line w' = [] /\
    log w' = [] ++ page_log (buf (mem w')) 56 4 ++ page_log (buf (mem w')) 0 4 /\
    tx_bytes (page_log (buf (mem w')) 56 4 ++ page_log (buf (mem w')) 0 4)
    = wire (page_frames (buf (mem w')) 56 4)
      ++ wire (page_frames (buf (mem w')) 0 4).
Proof.
  refine (paged_write_page_zero_order 4 1 8
            (demo_world demo_mem (repeat (Some 0) 20)) 240 195 []
            demo_flash_image eq_refl eq_refl demo_rjmp _ _ _ eq_refl eq_refl).
  - concrete.
  - concrete.
  - concrete.
Defined.

(** ** Where the code departs from the claims as written *)

(** C3 as written fails: with a page of 4 bytes (4 frames, half a window)
    the call at address 0 succeeds on a line that acknowledges every
    frame, yet the first frame on the line is the erase frame of the page
    of the virtual reset vector; the fill frames of both pages leave
    together, after the erase and the write of that page. *)
Lemma page_zero_order_counterexample :
  let r := picoboot_paged_write 4 4 0 4
             (demo_world demo_mem (repeat (Some 0) 12)) in
  let b' := buf (mem (snd r)) in
  fst r = Val 4 /\
  log (snd r)
  = [Tx (frame_bytes (make_frame 60 0 3)); Rx (Some 0);
     Tx (frame_bytes (make_frame 60 0 5)); Rx (Some 0);
     Tx (wire (fill_frames b' 60 2 ++ fill_frames b' 0 2))]
    ++ repeat (Rx (Some 0)) 8
    ++ [Tx (frame_bytes (make_frame 0 0 3)); Rx (Some 0);
        Tx (frame_bytes (make_frame 0 0 5)); Rx (Some 0)] /\
  tx_bytes (log (snd r))
  <> wire (page_frames b' 60 2) ++ wire (page_frames b' 0 2).
Proof.
  vm_compute. repeat split. discriminate.
Qed.

(** C6 as written fails: the first acknowledgement of the flush times out,
    and the page write goes on to the erase and the write frame and
    returns the byte count; and a byte other than 0x00 gives no negative
    result, the run exits. *)
Lemma failed_ack_counterexample :
  let r := picoboot_paged_write 4 8 8 8
             (demo_world demo_mem [None; Some 0; Some 0]) in
  let r' := picoboot_paged_write 4 8 8 8
              (demo_world demo_mem [Some 1; Some 0; Some 0]) in
  fst r = Val 8 /\
  log (snd r)
  = [Tx (wire (fill_frames demo_buf 8 4)); Rx None;
     Tx (frame_bytes (make_frame 8 0 3)); Rx (Some 0);
     Tx (frame_bytes (make_frame 8 0 5)); Rx (Some 0)] /\
  fst r' = Halt (Exit ProtocolError).
Proof.
  vm_compute. repeat split.
Qed.

(** C7 as written fails: the flush is over when the call for the 8th frame
    returns; the call for the 9th frame sends and reads nothing. And on a
    line that stays silent a flush reads one acknowledgement, not 8, and
    after two windows 16 frames are sent and not acknowledged. *)
Lemma ninth_frame_counterexample :
  let w := demo_world demo_mem (repeat (Some 0) 8) in
  let w8 := snd (buffered_sends (take 8 nine_frames) w) in
  let w9 := snd (buffered_sends (drop 8 nine_frames) w8) in
  let two := take 8 nine_frames ++ take 8 nine_frames in
  let silent := snd (buffered_sends two (demo_world demo_mem [])) in
  log w8 = flush_log (take 8 nine_frames) /\
  win w8 = [] /\
  log w9 = log w8 /\ line w9 = line w8 /\
  win w9 = wire (drop 8 nine_frames) /\
  log silent = [Tx (wire (take 8 nine_frames)); Rx None;
                Tx (wire (take 8 nine_frames)); Rx None] /\
  peak_in_flight 0 (log silent) = 16.
Proof.
  vm_compute. repeat split.
Qed.

(** C8 as written fails: for the page at 8 of the 128-byte image (a page
    the paged write accepts: it lies below 62) the fill-buffer frames
    carry 8 and 10, the addresses of the words, not their offsets 0 and 2
    within the page. The frames are those the paged write at 8 leaves in
    the window. *)
Lemma fill_offset_counterexample :
  let w := demo_world demo_mem [] in
  win (snd (fill_page_buf 2 4 8 w))
  = [8; 9; 1; 0;  8; 0; 9; 1;  10; 11; 1; 0;  10; 0; 11; 1] /\
  win (snd (picoboot_paged_write 2 4 8 4 w))
  = [8; 9; 1; 0;  8; 0; 9; 1;  10; 11; 1; 0;  10; 0; 11; 1] /\
  wire (offset_fill_frames demo_buf 8 0 2)
  = [8; 9; 1; 0;  0; 0; 1; 1;  10; 11; 1; 0;  2; 0; 3; 1] /\
  fill_page_buf 2 4 8 w
  <> (buffered_sends (offset_fill_frames demo_buf 8 0 2) ;;; ret 0) w.
Proof.
  vm_compute. repeat split. discriminate.
Qed.

(** * More of the driver *)

(** ** Rules for runs *)

Lemma triple_ret {A} (P : world -> Prop) (a : A) Q E :
  (forall w, P w -> Q a w) -> triple P (ret a) Q E.
Proof. intros H w r w' Hp Er. inversion Er; subst. now apply H. Qed.

Lemma triple_stop {A} (P : world -> Prop) h (Q : A -> world -> Prop) E :
  (forall w, P w -> E h w) -> triple P (stop h) Q E.
Proof. intros H w r w' Hp Er. inversion Er; subst. now apply H. Qed.

Lemma triple_bind {A B} P (c : M A) (k : A -> M B) Q R E :
  triple P c Q E -> (forall a, triple (Q a) (k a) R E) ->
  triple P (bind c k) R E.
Proof.
  intros Hc Hk w r w' Hp Er. unfold bind in Er.
  destruct (c w) as [[a|h] w1] eqn:E1.
  - exact (Hk a w1 r w' (Hc w (Val a) w1 Hp E1) Er).
  - inversion Er; subst. exact (Hc w (Halt h) w' Hp E1).
Qed.

Lemma triple_if {A} P (b : bool) (c1 c2 : M A) Q E :
  triple P c1 Q E -> triple P c2 Q E -> triple P (if b then c1 else c2) Q E.
Proof. destruct b; auto. Qed.

Lemma triple_weaken {A} (P P' : world -> Prop) (c : M A)
    (Q Q' : A -> world -> Prop) (E E' : halt -> world -> Prop) :
  (forall w, P' w -> P w) ->
  (forall a w, Q a w -> Q' a w) ->
  (forall h w, E h w -> E' h w) ->
  triple P c Q E -> triple P' c Q' E'.
Proof.
  intros HP HQ HE H w r w' Hp Er.
  specialize (H w r w' (HP w Hp) Er). destruct r; auto.
Qed.

(** ** Blocks of frames *)

Lemma frames_ok_length bs :
  frames_ok bs = true -> exists k, length bs = (4 * k)%nat.
Proof.
  remember (length bs) as n eqn:Hn. revert bs Hn.
  induction n as [n IH] using lt_wf_ind. intros bs Hn H.
  destruct bs as [|lo [|hi [|ck [|cmd rest]]]]; try discriminate.
  - exists 0%nat. simpl in Hn. lia.
  - cbn [frames_ok] in H. apply andb_true_iff in H. destruct H as (_ & H).
    destruct (IH (length rest)) with (bs := rest) as (k & Hk);
      [simpl in Hn; lia | reflexivity | exact H |].
    exists (S k). simpl in Hn |- *. lia.
Qed.

Lemma frames_ok_app a : forall b,
  frames_ok a = true -> frames_ok b = true -> frames_ok (a ++ b) = true.
Proof.
  remember (length a) as n eqn:Hn. revert a Hn.
  induction n as [n IH] using lt_wf_ind. intros a Hn b Ha Hb.
  destruct a as [|lo [|hi [|ck [|cmd rest]]]]; try discriminate.
  - exact Hb.
  - cbn [frames_ok app] in *. apply andb_true_iff in Ha.
    destruct Ha as (Hc & Ha). rewrite Hc. cbn [andb].
    apply (IH (length rest)); [simpl in Hn; lia | reflexivity | exact Ha | exact Hb].
Qed.

Lemma frames_ok_sealed fr : frames_ok (frame_bytes (sealed fr)) = true.
Proof. unfold frame_bytes, sealed. cbn. now rewrite Z.eqb_refl. Qed.

Lemma frames_below_app limit a : forall b,
  frames_ok a = true -> frames_below limit a = true ->
  frames_below limit b = true -> frames_below limit (a ++ b) = true.
Proof.
  remember (length a) as n eqn:Hn. revert a Hn.
  induction n as [n IH] using lt_wf_ind. intros a Hn b Ha Hl Hb.
  destruct a as [|lo [|hi [|ck [|cmd rest]]]]; try discriminate.
  - exact Hb.
  - cbn [frames_ok frames_below app] in *.
    apply andb_true_iff in Ha. destruct Ha as (_ & Ha).
    apply andb_true_iff in Hl. destruct Hl as (Hc & Hl).
    rewrite Hc. cbn [andb].
    apply (IH (length rest)); [simpl in Hn; lia | reflexivity | | |];
      assumption.
Qed.

(** ** What the acknowledgement loop touches *)

Lemma wait_acks_effect n : forall w r w',
  wait_acks n w = (r, w') ->
  mem w' = mem w /\ win w' = win w /\
  (exists l, log w' = log w ++ l /\ forall bs, ~ In (Tx bs) l) /\
  (forall h, r = Halt h -> h = Exit ProtocolError) /\
  (forall v, r = Val v -> v = 0 \/ v = -1).
Proof.
  induction n as [|n IH]; intros w r w' Er; simpl in Er.
  - inversion Er; subst. repeat split; try discriminate.
    + exists []. rewrite app_nil_r. split; [reflexivity | intros bs []].
    + intros v Hv. inversion Hv. auto.
  - unfold bind in Er. rewrite wait_ack_run in Er.
    set (w1 := mk_world (mem w) (f w) (win w) (List.tl (line w))
                        (log w ++ [Rx (next_response (line w))])) in *.
    assert (Hone : forall bs, ~ In (Tx bs) [Rx (next_response (line w))])
      by (intros bs [H|[]]; discriminate).
    destruct (next_response (line w)) as [b|].
    + destruct (b =? 0).
      * change (negb (0 =? 0)) with false in Er. cbv iota in Er.
        destruct (IH _ _ _ Er) as (Hm & Hw & (l & Hl & Hno) & Hh & Hv).
        repeat split; try assumption.
        exists (Rx (Some b) :: l). cbn [log w1] in Hl.
        rewrite Hl, <- app_assoc. split; [reflexivity|].
        intros bs [H|H]; [discriminate | exact (Hno bs H)].
      * inversion Er; subst. repeat split; try discriminate.
        -- exists [Rx (Some b)]. split; [reflexivity|].
           intros bs [H|[]]; discriminate.
        -- intros h Hh. now inversion Hh.
    + change (negb (-1 =? 0)) with true in Er. cbv iota in Er.
      inversion Er; subst. repeat split; try discriminate.
      * exists [Rx None]. split; [reflexivity|].
        intros bs [H|[]]; discriminate.
      * intros v Hv. inversion Hv. auto.
Qed.

(** ** The pipeline keeps its window and its blocks well formed *)

Section Pipeline_invariant.

Variable extra : list Z -> bool.
Hypothesis extra_nil : extra [] = true.
Hypothesis extra_app : forall a b,
  frames_ok a = true -> extra a = true -> extra b = true ->
  extra (a ++ b) = true.
Variable l0 : list event.

Lemma inv_quiet {A} (c : M A) :
  quiet c ->
  triple (inv extra l0) c (fun _ => inv extra l0) (fun _ => inv extra l0).
Proof.
  intros Hq w r w' Hi Er. destruct (Hq _ _ _ Er) as (Hw & Hl).
  assert (inv extra l0 w') by (unfold inv in *; now rewrite Hw, Hl).
  destruct r; assumption.
Qed.

Lemma inv_wait_acks_state n w r w' :
  inv extra l0 w -> wait_acks n w = (r, w') -> inv extra l0 w'.
Proof.
  intros (Hf & He & Hlen & l & Hl & Hall) Er.
  destruct (wait_acks_effect _ _ _ _ Er) as (_ & Hw & (l' & Hl' & Hno) & _).
  unfold inv. rewrite Hw. repeat split; try assumption.
  exists (l ++ l'). rewrite Hl', Hl, app_assoc. split; [reflexivity|].
  intros bs Hin. apply in_app_or in Hin. destruct Hin as [Hin|Hin].
  - exact (Hall bs Hin).
  - destruct (Hno bs Hin).
Qed.

Lemma inv_wait_acks n :
  triple (inv extra l0) (wait_acks n) (fun _ => inv extra l0)
         (fun h w => h = Exit ProtocolError /\ inv extra l0 w).
Proof.
  intros w r w' Hi Er.
  pose proof (inv_wait_acks_state _ _ _ _ Hi Er) as Hi'.
  destruct (wait_acks_effect _ _ _ _ Er) as (_ & _ & _ & Hh & _).
  destruct r as [a|h]; [assumption | split; auto].
Qed.

Lemma inv_wait_ack :
  triple (inv extra l0) picoboot_wait_ack (fun _ => inv extra l0)
         (fun h w => h = Exit ProtocolError /\ inv extra l0 w).
Proof.
  intros w r w' Hi Er.
  assert (E1 : wait_acks 1 w
               = (match r with
                  | Val a => if negb (a =? 0) then Val (-1) else Val 0
                  | Halt h => Halt h
                  end, w')).
  { simpl. unfold bind. rewrite Er. destruct r as [a|h]; [|reflexivity].
    destruct (negb (a =? 0)); reflexivity. }
  pose proof (inv_wait_acks 1 _ _ _ Hi E1) as H.
  destruct r as [a|h]; [|exact H].
  destruct (negb (a =? 0)); exact H.
Qed.

(** One buffered send of a frame that satisfies [extra]: the window
    never overflows, and a full window leaves as one block. *)
Lemma inv_buffered_send :
  triple (fun w => inv extra l0 w /\
                   extra (frame_bytes (sealed (f w))) = true)
         picoboot_buffered_send (fun _ => inv extra l0)
         (fun h w => h = Exit ProtocolError /\ inv extra l0 w).
Proof.
  intros w r w' ((Hf & He & Hlen & l & Hl & Hall) & Hfr) Er.
  destruct (frames_ok_length _ Hf) as (k & Hk).
  assert (Hblock : frames_ok (win w ++ frame_bytes (sealed (f w))) = true
                   /\ extra (win w ++ frame_bytes (sealed (f w))) = true).
  { split; [apply frames_ok_app; auto using frames_ok_sealed
           | apply extra_app; assumption]. }
  destruct (Nat.lt_ge_cases (length (win w)) 28) as [Hlt|Hge].
  - rewrite buffered_send_buffers in Er by assumption.
    inversion Er; subst. unfold inv. cbn [win log].
    destruct Hblock. repeat split; try assumption.
    + rewrite length_app.
      change (length (frame_bytes (sealed (f w)))) with 4%nat. lia.
    + exists l. auto.
  - rewrite buffered_send_flushes in Er by lia.
    assert (Hi2 : inv extra l0
              (mk_world (mem w) (sealed (f w)) [] (line w)
                 (log w ++ [Tx (win w ++ frame_bytes (sealed (f w)))]))).
    { unfold inv. cbn [win log]. repeat split; auto; [simpl; lia|].
      exists (l ++ [Tx (win w ++ frame_bytes (sealed (f w)))]).
      rewrite Hl, app_assoc. split; [reflexivity|].
      intros bs Hin. apply in_app_or in Hin. destruct Hin as [Hin|[Hin|[]]].
      - exact (Hall bs Hin).
      - inversion Hin; subst. exact Hblock. }
    exact (inv_wait_acks _ _ _ _ Hi2 Er).
Qed.

Lemma inv_submit fr :
  extra (frame_bytes (sealed fr)) = true ->
  triple (inv extra l0) (submit fr) (fun _ => inv extra l0)
         (fun h w => h = Exit ProtocolError /\ inv extra l0 w).
Proof.
  intros Hfr w r w' Hi Er. unfold submit, bind, set_f in Er.
  refine (inv_buffered_send _ r w' _ Er). split.
  - exact Hi.
  - exact Hfr.
Qed.

Lemma inv_buffered_sends frs :
  Forall (fun fr => extra (frame_bytes (sealed fr)) = true) frs ->
  triple (inv extra l0) (buffered_sends frs) (fun _ => inv extra l0)
         (fun h w => h = Exit ProtocolError /\ inv extra l0 w).
Proof.
  induction 1 as [|fr frs Hfr Hall IH]; simpl.
  - apply triple_ret. auto.
  - apply triple_bind with (Q := fun _ => inv extra l0).
    + now apply inv_submit.
    + intros _. exact IH.
Qed.

(** a frame sent at once, as [erase_page] and [write_page] do, and its
    acknowledgement *)
Lemma inv_command lo hi cmd :
  extra (frame_bytes (make_frame lo hi cmd)) = true ->
  triple (inv extra l0)
         (set_f lo hi cmd ;;;
          picoboot_send_frame ;;;
          r <- picoboot_wait_ack ;;
          if negb (r =? 0) then ret (-1) else ret 0)
         (fun _ => inv extra l0)
         (fun h w => h = Exit ProtocolError /\ inv extra l0 w).
Proof.
  intros Hfr w r w' (Hf & He & Hlen & l & Hl & Hall) Er.
  set (w2 := mk_world (mem w) (make_frame lo hi cmd) (win w) (line w)
               (log w ++ [Tx (frame_bytes (make_frame lo hi cmd))])).
  change ((r <- picoboot_wait_ack ;;
           if negb (r =? 0) then ret (-1) else ret 0) w2 = (r, w')) in Er.
  assert (Hi2 : inv extra l0 w2).
  { unfold inv, w2. cbn [win log]. repeat split; try assumption.
    exists (l ++ [Tx (frame_bytes (make_frame lo hi cmd))]).
    rewrite Hl, app_assoc. split; [reflexivity|].
    intros bs Hin. apply in_app_or in Hin. destruct Hin as [Hin|[Hin|[]]].
    - exact (Hall bs Hin).
    - inversion Hin; subst. split; [apply frames_ok_sealed | exact Hfr]. }
  assert (T : triple (inv extra l0)
                (r <- picoboot_wait_ack ;;
                 if negb (r =? 0) then ret (-1) else ret 0)
                (fun _ => inv extra l0)
                (fun h w => h = Exit ProtocolError /\ inv extra l0 w)).
  { apply triple_bind with (Q := fun _ => inv extra l0);
      [apply inv_wait_ack |].
    intros a. apply triple_if; apply triple_ret; auto. }
  exact (T w2 r w' Hi2 Er).
Qed.

End Pipeline_invariant.

(** ** Every block sent is made of checksummed frames *)

Lemma quiet_set_f lo hi cmd : quiet (set_f lo hi cmd).
Proof. intros w r w' E. inversion E; subst. auto. Qed.

Lemma quiet_load8 i : quiet (load8 i).
Proof.
  intros w r w' E. unfold load8 in E.
  destruct (i <? 0); [|destruct (buf (mem w) !! Z.to_nat i)];
    inversion E; subst; auto.
Qed.

Lemma quiet_store8 i v : quiet (store8 i v).
Proof.
  intros w r w' E. unfold store8 in E.
  destruct ((i <? 0) || (Z.of_nat (length (buf (mem w))) <=? i));
    inversion E; subst; auto.
Qed.

Section Checksummed.

Variable l0 : list event.

(** the invariant without a further condition *)
Let framed : world -> Prop := inv (fun _ => true) l0.

Let always : halt -> world -> Prop := fun _ => framed.

Lemma framed_quiet {A} (c : M A) :
  quiet c -> triple framed c (fun _ => framed) always.
Proof. intros H. apply inv_quiet. exact H. Qed.

Lemma framed_buffered_send :
  triple framed picoboot_buffered_send (fun _ => framed) always.
Proof.
  eapply triple_weaken;
    [ | | | apply (inv_buffered_send (fun _ => true) eq_refl
                     (fun _ _ _ _ _ => eq_refl) l0)].
  - intros w H. split; [exact H | reflexivity].
  - intros a w H. exact H.
  - intros h w (_ & H). exact H.
Qed.

Lemma framed_command lo hi cmd :
  triple framed
         (set_f lo hi cmd ;;;
          picoboot_send_frame ;;;
          r <- picoboot_wait_ack ;;
          if negb (r =? 0) then ret (-1) else ret 0)
         (fun _ => framed) always.
Proof.
  eapply triple_weaken;
    [ | | | apply (inv_command (fun _ => true) l0 lo hi cmd eq_refl)].
  - intros w H. exact H.
  - intros a w H. exact H.
  - intros h w (_ & H). exact H.
Qed.

Lemma framed_fill_word cur :
  triple framed (fill_word cur) (fun _ => framed) always.
Proof.
  unfold fill_word.
  apply triple_bind with (Q := fun _ => framed);
    [apply framed_quiet, quiet_load8 | intros lo].
  apply triple_bind with (Q := fun _ => framed);
    [apply framed_quiet, quiet_load8 | intros hi].
  apply triple_bind with (Q := fun _ => framed);
    [apply framed_quiet, quiet_set_f | intros _].
  apply triple_bind with (Q := fun _ => framed);
    [apply framed_buffered_send | intros _].
  apply triple_bind with (Q := fun _ => framed);
    [apply framed_quiet, quiet_set_f | intros _].
  apply triple_bind with (Q := fun _ => framed);
    [apply framed_buffered_send | intros _].
  apply triple_ret. auto.
Qed.

Lemma framed_fill_loop fuel page_addr page_size : forall cur,
  triple framed (fill_loop fuel page_addr page_size cur)
         (fun _ => framed) always.
Proof.
  induction fuel as [|fuel IH]; intros cur; simpl;
    (apply triple_if; [|apply triple_ret; auto]).
  - apply triple_stop. unfold always. auto.
  - apply triple_bind with (Q := fun _ => framed);
      [apply framed_fill_word | intros _; apply IH].
Qed.

Lemma framed_program_page fuel page_size fa pa k :
  triple framed k (fun _ => framed) always ->
  triple framed (program_page fuel page_size fa pa k)
         (fun _ => framed) always.
Proof.
  intros Hk. unfold program_page, fill_page_buf.
  apply triple_bind with (Q := fun _ => framed);
    [apply framed_fill_loop | intros r1].
  apply triple_if; [apply triple_ret; auto|].
  apply triple_bind with (Q := fun _ => framed);
    [apply framed_command | intros r2].
  apply triple_if; [apply triple_ret; auto|].
  apply triple_bind with (Q := fun _ => framed);
    [apply framed_command | intros r3].
  apply triple_if; [apply triple_ret; auto | exact Hk].
Qed.

Lemma framed_paged_write fuel page_size addr num_bytes :
  triple framed (picoboot_paged_write fuel page_size addr num_bytes)
         (fun _ => framed) always.
Proof.
  assert (Hpage : triple framed
            (program_page fuel page_size (u16 addr) (s32 addr)
                          (ret (s32 num_bytes)))
            (fun _ => framed) always)
    by (apply framed_program_page, triple_ret; auto).
  intros w r w' Hi Er. unfold picoboot_paged_write in Er.
  destruct (negb (String.eqb (desc (mem w)) "flash"));
    [inversion Er; subst; exact Hi|].
  destruct (vrst_vec_addr (mem w) <=? addr);
    [inversion Er; subst; exact Hi|].
  destruct (u32 (vrst_vec_addr (mem w) - page_size) <? addr);
    [inversion Er; subst; exact Hi|].
  destruct (addr =? 0); [|exact (Hpage w r w' Hi Er)].
  unfold relocate_reset_vector in Er. cbv zeta in Er.
  revert Er. generalize (vrst_vec_addr (mem w)). intros v Er.
  revert w r w' Hi Er.
  change (triple framed
    (b0 <- load8 0 ;;
     b1 <- load8 1 ;;
     (if negb (Z.land (u16 (Z.lor b0 (Z.shiftl b1 8))) 61440 =? 49152)
      then stop (Exit NoResetVector)
      else
        store8 0 reset_vec_lo ;;;
        store8 1 reset_vec_hi ;;;
        store8 v (Z.land (u16 (new_appstart (u16 (Z.lor b0 (Z.shiftl b1 8))))) 255) ;;;
        store8 (v + 1) (Z.shiftr (u16 (new_appstart (u16 (Z.lor b0 (Z.shiftl b1 8))))) 8) ;;;
        program_page fuel page_size (u16 (v - page_size + 2))
                     (u16 (v - page_size + 2))
                     (program_page fuel page_size (u16 addr) (s32 addr)
                                   (ret (s32 num_bytes)))))
    (fun _ => framed) always).
  apply triple_bind with (Q := fun _ => framed);
    [apply framed_quiet, quiet_load8 | intros b0].
  apply triple_bind with (Q := fun _ => framed);
    [apply framed_quiet, quiet_load8 | intros b1].
  apply triple_if; [apply triple_stop; unfold always; auto|].
  repeat (apply triple_bind with (Q := fun _ => framed);
          [apply framed_quiet, quiet_store8 | intros _]).
  apply framed_program_page, Hpage.
Qed.

End Checksummed.

(** X1: whatever the line answers, a paged write that starts with whole
    checksummed frames in the window sends only blocks of whole 4-byte
    frames whose check byte is [data_lo ^ data_hi ^ command], and leaves
    such frames, fewer than 8, in the window. *)
Theorem paged_write_sends_checksummed_frames :
  forall fuel page_size addr num_bytes w r w',
    frames_ok (win w) = true ->
    (length (win w) < 32)%nat ->
    picoboot_paged_write fuel page_size addr num_bytes w = (r, w') ->
    frames_ok (win w') = true /\
    (length (win w') < 32)%nat /\
    exists l, log w' = log w ++ l /\
              forall bs, In (Tx bs) l -> frames_ok bs = true.
Proof.
  intros fuel page_size addr num_bytes w r w' Hf Hlen Er.
  assert (Hi : inv (fun _ => true) (log w) w).
  { unfold inv. repeat split; try assumption.
    exists []. rewrite app_nil_r. split; [reflexivity | intros bs []]. }
  pose proof (framed_paged_write (log w) fuel page_size addr num_bytes
                                 w r w' Hi Er) as H.
  assert (Hi' : inv (fun _ => true) (log w) w') by (destruct r; exact H).
  destruct Hi' as (Hf' & _ & Hlen' & l & Hl & Hall).
  repeat split; try assumption.
  exists l. split; [assumption|]. intros bs Hin. apply (Hall bs Hin).
Qed.

(** ** No frame addresses the bootloader *)

Lemma triple_mem {A} (m : AVRMEM) P (c : M A) Q E :
  keeps_mem c -> triple P c Q E ->
  triple (fun w => P w /\ mem w = m) c
         (fun a w => Q a w /\ mem w = m) (fun h w => E h w /\ mem w = m).
Proof.
  intros Hk Ht w r w' (Hp & Hm) Er.
  pose proof (Ht w r w' Hp Er) as H. rewrite <- (Hk _ _ _ Er) in Hm.
  destruct r; auto.
Qed.

Lemma keeps_mem_buffered_sends frs : keeps_mem (buffered_sends frs).
Proof.
  induction frs as [|fr frs IH]; simpl; [apply keeps_mem_ret|].
  apply keeps_mem_bind; [apply keeps_mem_submit | intros _; exact IH].
Qed.

Lemma frames_below_command limit lo hi cmd :
  lo + 256 * hi < limit ->
  frames_below limit (frame_bytes (make_frame lo hi cmd)) = true.
Proof.
  intros H. unfold frame_bytes, make_frame, sealed. cbn.
  destruct (lo + 256 * hi <? limit) eqn:E; [|lia].
  now rewrite orb_true_r.
Qed.

Lemma fill_frames_below limit b n : forall cur,
  0 <= cur ->
  cur + 2 * Z.of_nat n <= 65536 ->
  cur + 2 * Z.of_nat n - 2 < limit ->
  Forall (fun fr => frames_below limit (frame_bytes (sealed fr)) = true)
         (fill_frames b cur n).
Proof.
  induction n as [|n IH]; intros cur H0 Hw Hl; cbn [fill_frames].
  - constructor.
  - constructor; [reflexivity|].
    constructor.
    + apply (frames_below_command limit (addr_lo cur) (addr_hi cur) 1).
      rewrite addr_payload by lia. lia.
    + apply IH; lia.
Qed.

Section Guarded.

Variables (limit : Z) (l0 : list event) (m : AVRMEM).

(** whole checksummed frames that keep below [limit], and the image [m] *)
Let guarded : world -> Prop :=
  fun w => inv (frames_below limit) l0 w /\ mem w = m.

Let exits : halt -> world -> Prop :=
  fun h w => is_exit h /\ guarded w.

Lemma guarded_fill_page_buf fuel page_size a :
  (page_words page_size <= fuel)%nat ->
  0 <= a -> 0 <= page_size ->
  a + 2 * Z.of_nat (page_words page_size) <= Z.of_nat (length (buf m)) ->
  a + 2 * Z.of_nat (page_words page_size) <= 65535 ->
  a + page_size <= limit ->
  triple guarded (fill_page_buf fuel page_size a)
         (fun r w => r = 0 /\ guarded w) exits.
Proof.
  intros Hf Ha Hp Hlen Hw Hl w r w' (Hi & Hm) Er.
  rewrite fill_page_buf_sends in Er by (rewrite ?Hm; assumption).
  rewrite Hm in Er.
  assert (Hn : 2 * Z.of_nat (page_words page_size) - 2 < page_size).
  { unfold page_words. rewrite Z2Nat.id by (apply Z.div_pos; lia).
    pose proof (Z.div_mod (page_size + 1) 2 ltac:(lia)).
    pose proof (Z.mod_pos_bound (page_size + 1) 2 ltac:(lia)). lia. }
  assert (T : triple guarded
                (buffered_sends
                   (fill_frames (buf m) a (page_words page_size)) ;;;
                 ret 0)
                (fun r w => r = 0 /\ guarded w) exits).
  { apply triple_bind with (Q := fun _ => guarded).
    - eapply triple_weaken;
        [ | | | apply (triple_mem m), (inv_buffered_sends
                   (frames_below limit) eq_refl
                   (frames_below_app limit) l0);
                [apply keeps_mem_buffered_sends
                | apply fill_frames_below; lia] ].
      + intros w0 H. exact H.
      + intros u w0 H. exact H.
      + intros h w0 ((Hh & Hi0) & Hm0). split; [|split; assumption].
        exists ProtocolError. exact Hh.
    - intros _. apply triple_ret. auto. }
  exact (T w r w' (conj Hi Hm) Er).
Qed.

Lemma guarded_command a cmd :
  0 <= a < 65536 -> a < limit ->
  triple guarded
         (set_f (addr_lo a) (addr_hi a) cmd ;;;
          picoboot_send_frame ;;;
          r <- picoboot_wait_ack ;;
          if negb (r =? 0) then ret (-1) else ret 0)
         (fun _ => guarded) exits.
Proof.
  intros Ha Hl.
  eapply triple_weaken;
    [ | | | apply (triple_mem m),
              (inv_command (frames_below limit) l0 (addr_lo a) (addr_hi a)
                           cmd) ].
  - intros w H. exact H.
  - intros u w H. exact H.
  - intros h w ((Hh & Hi0) & Hm0). split; [|split; assumption].
    exists ProtocolError. exact Hh.
  - repeat keeps_step.
  - apply frames_below_command. rewrite addr_payload by assumption. lia.
Qed.

Lemma guarded_program_page fuel page_size a k Q :
  (page_words page_size <= fuel)%nat ->
  0 <= a -> 0 <= page_size ->
  a + 2 * Z.of_nat (page_words page_size) <= Z.of_nat (length (buf m)) ->
  a + 2 * Z.of_nat (page_words page_size) <= 65535 ->
  a + page_size <= limit -> a < limit ->
  (forall w, guarded w -> Q (-1) w) ->
  triple guarded k Q exits ->
  triple guarded (program_page fuel page_size a a k) Q exits.
Proof.
  intros Hf Ha Hp Hlen Hw Hl Hal Hq Hk. unfold program_page.
  apply triple_bind with (Q := fun r w => r = 0 /\ guarded w);
    [now apply guarded_fill_page_buf | intros r1].
  apply triple_if; [apply triple_ret; intros w (_ & H); auto|].
  apply triple_bind with (Q := fun _ => guarded).
  { eapply triple_weaken; [ | | | apply (guarded_command a 3); lia].
    - intros w (_ & H). exact H.
    - auto.
    - auto. }
  intros r2. apply triple_if; [apply triple_ret; auto|].
  apply triple_bind with (Q := fun _ => guarded);
    [apply (guarded_command a 5); lia | intros r3].
  apply triple_if; [apply triple_ret; auto | exact Hk].
Qed.

End Guarded.

Lemma relocate_invalid fuel page_size k w b0 b1 :
  buf (mem w) !! 0%nat = Some b0 ->
  buf (mem w) !! 1%nat = Some b1 ->
  ~ is_rjmp (word16 b0 b1) ->
  relocate_reset_vector fuel page_size k w = (Halt (Exit NoResetVector), w).
Proof.
  intros H0 H1 Hj. unfold relocate_reset_vector. cbv zeta.
  bind_step ltac:(apply load8_in; [lia | exact H0]).
  bind_step ltac:(apply load8_in; [lia | exact H1]).
  fold (word16 b0 b1).
  destruct (Z.land (word16 b0 b1) 61440 =? 49152) eqn:E.
  - apply Z.eqb_eq in E. contradiction.
  - reflexivity.
Qed.

(** A paged write on a flash image with at least one page below the
    reserved region: the run returns or exits, and the pipeline keeps
    below any [limit] from [size - 64] on. *)
Lemma guarded_paged_write limit fuel page_size addr num_bytes l0 w r w' :
  flash_image (mem w) ->
  0 < page_size <= size (mem w) - BOOTLOADER_SIZE ->
  0 <= addr ->
  (page_words page_size <= fuel)%nat ->
  size (mem w) - 64 <= limit ->
  inv (frames_below limit) l0 w ->
  picoboot_paged_write fuel page_size addr num_bytes w = (r, w') ->
  inv (frames_below limit) l0 w' /\
  match r with
  | Val v => v = -1 \/ v = s32 num_bytes
  | Halt h => is_exit h
  end.
Proof.
  intros Hf Hps Haddr Hfuel Hlim Hi Er.
  pose proof Hf as (Hd & Hlen & Hs). unfold BOOTLOADER_SIZE in *.
  assert (Hv : vrst_vec_addr (mem w) = size (mem w) - 66).
  { apply vrst_vec_addr_eq. unfold BOOTLOADER_SIZE. lia. }
  assert (Hn : 2 * Z.of_nat (page_words page_size) <= page_size + 1).
  { unfold page_words. rewrite Z2Nat.id by (apply Z.div_pos; lia).
    pose proof (Z.div_mod (page_size + 1) 2 ltac:(lia)).
    pose proof (Z.mod_pos_bound (page_size + 1) 2 ltac:(lia)). lia. }
  set (Q := fun (m : AVRMEM) (v : Z) (w1 : world) =>
              (inv (frames_below limit) l0 w1 /\ mem w1 = m) /\
              (v = -1 \/ v = s32 num_bytes)).
  assert (Hpage : forall m a,
    Z.of_nat (length (buf m)) = size (mem w) ->
    0 <= a -> a + page_size <= size (mem w) - 66 ->
    triple (fun w1 => inv (frames_below limit) l0 w1 /\ mem w1 = m)
           (program_page fuel page_size a a (ret (s32 num_bytes)))
           (Q m)
           (fun h w1 => is_exit h /\
                        inv (frames_below limit) l0 w1 /\ mem w1 = m)).
  { intros m a Hm Ha Hap.
    apply (guarded_program_page limit l0 m); try lia.
    - intros w1 H. split; auto.
    - apply triple_ret. intros w1 H. split; auto. }
  unfold picoboot_paged_write in Er. rewrite flash_eqb in Er by assumption.
  rewrite Hv in Er.
  destruct (size (mem w) - 66 <=? addr) eqn:E1.
  { inversion Er; subst. split; [assumption | now exists BootloaderWrite]. }
  rewrite u32_small in Er by lia.
  destruct (size (mem w) - 66 - page_size <? addr) eqn:E2.
  { inversion Er; subst. split; auto. }
  destruct (addr =? 0) eqn:E0.
  - apply Z.eqb_eq in E0. subst addr.
    destruct (lookup_lt_is_Some_2 (buf (mem w)) 0%nat) as [b0 H0]; [lia|].
    destruct (lookup_lt_is_Some_2 (buf (mem w)) 1%nat) as [b1 H1]; [lia|].
    destruct (Z.eq_dec (Z.land (word16 b0 b1) 61440) 49152) as [Hj|Hj].
    + rewrite (relocate_valid _ _ _ _ b0 b1) in Er by assumption.
      rewrite Hv in Er.
      replace (u16 (size (mem w) - 66 - page_size + 2))
        with (size (mem w) - 64 - page_size) in Er
        by (rewrite u16_small; lia).
      change (u16 0) with 0 in Er. change (s32 0) with 0 in Er.
      set (m' := redirect (mem w) (word16 b0 b1)) in *.
      assert (Hlen' : Z.of_nat (length (buf m')) = size (mem w))
        by (unfold m'; now rewrite redirect_length).
      assert (T : triple
                (fun w1 => inv (frames_below limit) l0 w1 /\ mem w1 = m')
                (program_page fuel page_size
                   (size (mem w) - 64 - page_size)
                   (size (mem w) - 64 - page_size)
                   (program_page fuel page_size 0 0 (ret (s32 num_bytes))))
                (Q m')
                (fun h w1 => is_exit h /\
                   inv (frames_below limit) l0 w1 /\ mem w1 = m')).
      { apply (guarded_program_page limit l0 m'); try lia.
        - intros w1 H. split; auto.
        - apply Hpage; lia. }
      assert (Hi1 : inv (frames_below limit) l0 (with_mem w m')
                    /\ mem (with_mem w m') = m') by (split; [exact Hi | reflexivity]).
      pose proof (T _ _ _ Hi1 Er) as H.
      destruct r as [v|h].
      * destruct H as ((Hi' & _) & Hr). auto.
      * destruct H as (Hh & Hi' & _). auto.
    + rewrite (relocate_invalid _ _ _ _ b0 b1) in Er by assumption.
      inversion Er; subst. split; [assumption | now exists NoResetVector].
  - apply Z.eqb_neq in E0.
    rewrite u16_small in Er by lia. rewrite s32_small in Er by lia.
    pose proof (Hpage (mem w) addr Hlen Haddr ltac:(lia) w r w'
                      (conj Hi eq_refl) Er) as H.
    destruct r as [v|h].
    + destruct H as ((Hi' & _) & Hr). auto.
    + destruct H as (Hh & Hi' & _). auto.
Qed.

Lemma frames_below_bound n : forall bs,
  (length bs <= n)%nat ->
  exists L, forall limit, L <= limit -> frames_below limit bs = true.
Proof.
  induction n as [|n IH]; intros bs Hn.
  - destruct bs; [|simpl in Hn; lia]. exists 0. reflexivity.
  - destruct bs as [|lo [|hi [|ck [|cmd rest]]]];
      try (exists 0; reflexivity).
    destruct (IH rest) as [L HL]; [simpl in Hn; lia|].
    exists (Z.max L (lo + 256 * hi + 1)). intros limit Hl.
    cbn [frames_below]. rewrite HL by lia.
    destruct (lo + 256 * hi <? limit) eqn:E; [|lia].
    now rewrite orb_true_r.
Qed.

(** X2: on a flash image with at least one page below the reserved region
    and with enough fuel for one page, a paged write at any address either
    returns or exits: it reads and writes the image only inside its buffer,
    its loop ends, and the window never overflows - whatever the line
    answers. *)
Theorem paged_write_returns_or_exits :
  forall fuel page_size addr num_bytes w r w',
    flash_image (mem w) ->
    0 < page_size <= size (mem w) - BOOTLOADER_SIZE ->
    0 <= addr ->
    (page_words page_size <= fuel)%nat ->
    frames_ok (win w) = true ->
    (length (win w) < 32)%nat ->
    picoboot_paged_write fuel page_size addr num_bytes w = (r, w') ->
    (exists v, r = Val v) \/ (exists d, r = Halt (Exit d)).
Proof.
  intros fuel page_size addr num_bytes w r w' Hf Hps Ha Hfuel Hw Hlen Er.
  destruct (frames_below_bound (length (win w)) (win w) (le_n _)) as [L HL].
  set (limit := Z.max L (size (mem w) - 64)).
  assert (Hi : inv (frames_below limit) (log w) w).
  { unfold inv. repeat split; try assumption.
    - apply HL. unfold limit. lia.
    - exists []. rewrite app_nil_r. split; [reflexivity | intros bs []]. }
  destruct (guarded_paged_write limit fuel page_size addr num_bytes (log w)
              w r w' Hf Hps Ha Hfuel ltac:(unfold limit; lia) Hi Er)
    as (_ & Hr).
  destruct r as [v|h]; [left; now exists v|].
  destruct Hr as [d ->]. right. now exists d.
Qed.

(** X3: with the conditions of X2, no frame of a paged write names an
    address in the last 64 bytes of the flash: every frame sent or left
    in the window is a data frame (command 0) or carries an address below
    [size - 64] - none fills, erases or writes the bootloader. *)
Theorem paged_write_spares_bootloader :
  forall fuel page_size addr num_bytes w r w',
    flash_image (mem w) ->
    0 < page_size <= size (mem w) - BOOTLOADER_SIZE ->
    0 <= addr ->
    (page_words page_size <= fuel)%nat ->
    frames_ok (win w) = true ->
    (length (win w) < 32)%nat ->
    frames_below (size (mem w) - 64) (win w) = true ->
    picoboot_paged_write fuel page_size addr num_bytes w = (r, w') ->
    frames_below (size (mem w) - 64) (win w') = true /\
    exists l, log w' = log w ++ l /\
      forall bs, In (Tx bs) l ->
        frames_ok bs = true /\ frames_below (size (mem w) - 64) bs = true.
Proof.
  intros fuel page_size addr num_bytes w r w' Hf Hps Ha Hfuel Hw Hlen Hb Er.
  assert (Hi : inv (frames_below (size (mem w) - 64)) (log w) w).
  { unfold inv. repeat split; try assumption.
    exists []. rewrite app_nil_r. split; [reflexivity | intros bs []]. }
  destruct (guarded_paged_write (size (mem w) - 64) fuel page_size addr
              num_bytes (log w) w r w' Hf Hps Ha Hfuel (Z.le_refl _) Hi Er)
    as ((_ & Hb' & _ & l & Hl & Hall) & _).
  split; [exact Hb'|]. exists l. split; [exact Hl | exact Hall].
Qed.

(** ** What a call returns *)

Lemma triple_any {A} (P : world -> Prop) (c : M A) :
  triple P c (fun _ _ => True) (fun _ _ => True).
Proof. intros w r w' _ _. destruct r; exact I. Qed.

Lemma fill_loop_result fuel page_addr page_size : forall cur,
  triple (fun _ => True) (fill_loop fuel page_addr page_size cur)
         (fun v _ => v = 0) (fun _ _ => True).
Proof.
  induction fuel as [|fuel IH]; intros cur; simpl;
    (apply triple_if; [|apply triple_ret; auto]).
  - apply triple_stop. auto.
  - apply triple_bind with (Q := fun _ _ => True);
      [apply triple_any | intros _; apply IH].
Qed.

Lemma program_page_result fuel page_size fa pa k (Q : Z -> world -> Prop) :
  (forall w, Q (-1) w) ->
  triple (fun _ => True) k Q (fun _ _ => True) ->
  triple (fun _ => True) (program_page fuel page_size fa pa k)
         Q (fun _ _ => True).
Proof.
  intros Hq Hk. unfold program_page.
  apply triple_bind with (Q := fun _ _ => True);
    [apply triple_any | intros r1].
  apply triple_if; [apply triple_ret; auto|].
  apply triple_bind with (Q := fun _ _ => True);
    [apply triple_any | intros r2].
  apply triple_if; [apply triple_ret; auto|].
  apply triple_bind with (Q := fun _ _ => True);
    [apply triple_any | intros r3].
  apply triple_if; [apply triple_ret; auto | exact Hk].
Qed.

(** X4: whenever a paged write returns, the value is [-1] or [num_bytes]
    read as an [int]: no other count is ever reported, whatever the image,
    the address and the answers of the line. *)
Theorem paged_write_result :
  forall fuel page_size addr num_bytes w v w',
    picoboot_paged_write fuel page_size addr num_bytes w = (Val v, w') ->
    v = -1 \/ v = s32 num_bytes.
Proof.
  intros fuel page_size addr num_bytes w v w' Er.
  set (Q := fun (v : Z) (_ : world) => v = -1 \/ v = s32 num_bytes).
  assert (Hpage : forall fa pa,
            triple (fun _ => True)
                   (program_page fuel page_size fa pa (ret (s32 num_bytes)))
                   Q (fun _ _ => True)).
  { intros fa pa. apply program_page_result; [left; reflexivity|].
    apply triple_ret. intros w0 _. right. reflexivity. }
  unfold picoboot_paged_write in Er.
  destruct (negb (String.eqb (desc (mem w)) "flash"));
    [inversion Er; auto|].
  destruct (vrst_vec_addr (mem w) <=? addr); [discriminate|].
  destruct (u32 (vrst_vec_addr (mem w) - page_size) <? addr);
    [inversion Er; auto|].
  destruct (addr =? 0); [|exact (Hpage _ _ w (Val v) w' I Er)].
  unfold relocate_reset_vector in Er. cbv zeta in Er.
  revert Er. generalize (vrst_vec_addr (mem w)). intros a Er.
  assert (T : triple (fun _ => True)
    (b0 <- load8 0 ;;
     b1 <- load8 1 ;;
     (if negb (Z.land (u16 (Z.lor b0 (Z.shiftl b1 8))) 61440 =? 49152)
      then stop (Exit NoResetVector)
      else
        store8 0 reset_vec_lo ;;;
        store8 1 reset_vec_hi ;;;
        store8 a (Z.land (u16 (new_appstart (u16 (Z.lor b0 (Z.shiftl b1 8))))) 255) ;;;
        store8 (a + 1) (Z.shiftr (u16 (new_appstart (u16 (Z.lor b0 (Z.shiftl b1 8))))) 8) ;;;
        program_page fuel page_size (u16 (a - page_size + 2))
                     (u16 (a - page_size + 2))
                     (program_page fuel page_size (u16 addr) (s32 addr)
                                   (ret (s32 num_bytes)))))
    Q (fun _ _ => True)).
  { apply triple_bind with (Q := fun _ _ => True);
      [apply triple_any | intros b0].
    apply triple_bind with (Q := fun _ _ => True);
      [apply triple_any | intros b1].
    apply triple_if; [apply triple_stop; auto|].
    repeat (apply triple_bind with (Q := fun _ _ => True);
            [apply triple_any | intros _]).
    apply program_page_result; [left; reflexivity | apply Hpage]. }
  exact (T w (Val v) w' I Er).
Qed.

(** X5: whenever [fill_page_buf] returns, it returns 0 and has left the
    image as it was - also when a flush inside it was not acknowledged:
    the results of its buffered sends are not looked at. *)
Theorem fill_page_buf_reports_success :
  forall fuel page_size page_addr w v w',
    fill_page_buf fuel page_size page_addr w = (Val v, w') ->
    v = 0 /\ mem w' = mem w.
Proof.
  intros fuel page_size page_addr w v w' Er. split.
  - exact (fill_loop_result fuel page_addr page_size page_addr
                            w (Val v) w' I Er).
  - exact (keeps_mem_fill_loop fuel page_addr page_size page_addr
                               _ _ _ Er).
Qed.

(** ** A page whose erase or write is not acknowledged *)

Lemma command_frame_run a cmd w :
  (set_f (addr_lo a) (addr_hi a) cmd ;;;
   picoboot_send_frame ;;;
   r <- picoboot_wait_ack ;;
   if negb (r =? 0) then ret (-1) else ret 0) w
  = (match next_response (line w) with
     | None => Val (-1)
     | Some b => if b =? 0 then Val 0 else Halt (Exit ProtocolError)
     end,
     mk_world (mem w) (make_frame (addr_lo a) (addr_hi a) cmd) (win w)
       (List.tl (line w))
       (log w ++ [Tx (frame_bytes (make_frame (addr_lo a) (addr_hi a) cmd));
                  Rx (next_response (line w))])).
Proof.
  unfold bind, set_f, picoboot_send_frame, set_check, serial_send, bind.
  cbn [mem f win line log data_lo data_hi command].
  rewrite wait_ack_run. cbn [mem f win line log].
  rewrite <- app_assoc. cbn [app].
  destruct (next_response (line w)) as [b|]; [|reflexivity].
  destruct (b =? 0); reflexivity.
Qed.

(** the fill step of a page of [q] whole windows on a line that
    acknowledges every fill frame *)
Lemma fill_page_buf_good fuel q a w rest :
  (4 * q <= fuel)%nat ->
  0 <= a ->
  a + 8 * Z.of_nat q <= Z.of_nat (length (buf (mem w))) ->
  a + 8 * Z.of_nat q <= 65535 ->
  win w = [] ->
  line w = repeat (Some 0) (8 * q) ++ rest ->
  exists fr',
    fill_page_buf fuel (8 * Z.of_nat q) a w
    = (Val 0,
       mk_world (mem w) fr' [] rest
         (log w ++ flat_map flush_log
                     (windows (fill_frames (buf (mem w)) a (4 * q))))).
Proof.
  intros Hf Ha Hlen Hw Hwin Hl.
  pose proof (page_words_windows q) as Hq.
  assert (Hfill : fill_page_buf fuel (8 * Z.of_nat q) a w
                  = (buffered_sends
                       (fill_frames (buf (mem w)) a (4 * q)) ;;; ret 0) w).
  { rewrite <- Hq. apply fill_page_buf_sends; rewrite ?Hq; lia. }
  set (frs := fill_frames (buf (mem w)) a (4 * q)) in *.
  destruct (windows_whole frs q) as (Hc & _ & Hn);
    [unfold frs; rewrite fill_frames_length; lia|].
  destruct (windows_split frs) as (_ & Hall & _ & _).
  destruct (buffered_sends_windows (windows frs) [] w rest)
    as (fr1 & E1); auto; [simpl; lia | rewrite Hn; exact Hl|].
  rewrite app_nil_r, Hc in E1.
  exists fr1. rewrite Hfill. unfold bind. rewrite E1. reflexivity.
Qed.

(** an ordinary page: not page zero, and ending below the reserved region *)
Lemma ordinary_page_run fuel page_size addr num_bytes w :
  flash_image (mem w) ->
  0 < addr -> 0 < page_size ->
  addr + page_size <= size (mem w) - BOOTLOADER_SIZE ->
  picoboot_paged_write fuel page_size addr num_bytes w
  = program_page fuel page_size addr addr (ret (s32 num_bytes)) w.
Proof.
  intros (Hd & Hlen & Hs) Ha Hp Hb. unfold BOOTLOADER_SIZE in *.
  assert (Hv : vrst_vec_addr (mem w) = size (mem w) - 66).
  { apply vrst_vec_addr_eq. unfold BOOTLOADER_SIZE. lia. }
  unfold picoboot_paged_write. rewrite flash_eqb by assumption.
  rewrite Hv.
  destruct (size (mem w) - 66 <=? addr) eqn:E1;
    [apply Z.leb_le in E1; lia|].
  rewrite u32_small by lia.
  destruct (size (mem w) - 66 - page_size <? addr) eqn:E2;
    [apply Z.ltb_lt in E2; lia|].
  destruct (addr =? 0) eqn:E0; [apply Z.eqb_eq in E0; lia|].
  rewrite u16_small by lia. rewrite s32_small by lia. reflexivity.
Qed.

(** X6: an ordinary page of one or more whole windows whose fill frames are all
    acknowledged but whose erase frame is not: the call returns [-1] when
    the read fails and exits on a byte other than 0x00, and in both cases
    the write-page frame is never sent - the erase frame and the failed
    read are the last entries of the log. *)
Theorem paged_write_stops_at_failed_erase :
  forall fuel q addr num_bytes w rest,
    flash_image (mem w) ->
    (0 < q)%nat ->
    0 < addr ->
    addr + 8 * Z.of_nat q <= size (mem w) - BOOTLOADER_SIZE ->
    (4 * q <= fuel)%nat ->
    win w = [] ->
    line w = repeat (Some 0) (8 * q) ++ rest ->
    next_response rest <> Some 0 ->
    picoboot_paged_write fuel (8 * Z.of_nat q) addr num_bytes w
    = (match next_response rest with
       | None => Val (-1)
       | Some _ => Halt (Exit ProtocolError)
       end,
       mk_world (mem w) (make_frame (addr_lo addr) (addr_hi addr) 3) []
         (List.tl rest)
         (log w
          ++ flat_map flush_log
               (windows (fill_frames (buf (mem w)) addr (4 * q)))
          ++ [Tx (frame_bytes (make_frame (addr_lo addr) (addr_hi addr) 3));
              Rx (next_response rest)])).
Proof.
  intros fuel q addr num_bytes w rest Hf Hq0 Ha Hb Hfuel Hwin Hl Hx.
  pose proof Hf as (Hd & Hlen & Hs). unfold BOOTLOADER_SIZE in *.
  rewrite ordinary_page_run by (unfold BOOTLOADER_SIZE; auto; lia).
  destruct (fill_page_buf_good fuel q addr w rest) as (fr1 & E1);
    auto; try lia.
  unfold program_page. rewrite (bind_val _ _ _ _ _ E1).
  change (negb (0 =? 0)) with false. cbv iota.
  unfold erase_page, bind at 1.
  fold (addr_lo addr). fold (addr_hi addr).
  rewrite command_frame_run. cbn [mem f win line log].
  rewrite <- app_assoc.
  destruct (next_response rest) as [b|]; [|reflexivity].
  destruct (b =? 0) eqn:Eb; [|reflexivity].
  apply Z.eqb_eq in Eb. subst b. contradiction.
Qed.

(** X7: an ordinary page of one or more whole windows whose fill frames and erase
    frame are acknowledged but whose write-page frame is not: the page has
    been erased on the device, and the call returns [-1] when the read
    fails and exits on a byte other than 0x00; the image in memory is
    untouched. *)
Theorem paged_write_stops_at_failed_write :
  forall fuel q addr num_bytes w rest,
    flash_image (mem w) ->
    (0 < q)%nat ->
    0 < addr ->
    addr + 8 * Z.of_nat q <= size (mem w) - BOOTLOADER_SIZE ->
    (4 * q <= fuel)%nat ->
    win w = [] ->
    line w = repeat (Some 0) (8 * q) ++ Some 0 :: rest ->
    next_response rest <> Some 0 ->
    picoboot_paged_write fuel (8 * Z.of_nat q) addr num_bytes w
    = (match next_response rest with
       | None => Val (-1)
       | Some _ => Halt (Exit ProtocolError)
       end,
       mk_world (mem w) (make_frame (addr_lo addr) (addr_hi addr) 5) []
         (List.tl rest)
         (log w
          ++ flat_map flush_log
               (windows (fill_frames (buf (mem w)) addr (4 * q)))
          ++ [Tx (frame_bytes (make_frame (addr_lo addr) (addr_hi addr) 3));
              Rx (Some 0);
              Tx (frame_bytes (make_frame (addr_lo addr) (addr_hi addr) 5));
              Rx (next_response rest)])).
Proof.
  intros fuel q addr num_bytes w rest Hf Hq0 Ha Hb Hfuel Hwin Hl Hx.
  pose proof Hf as (Hd & Hlen & Hs). unfold BOOTLOADER_SIZE in *.
  rewrite ordinary_page_run by (unfold BOOTLOADER_SIZE; auto; lia).
  destruct (fill_page_buf_good fuel q addr w (Some 0 :: rest)) as (fr1 & E1);
    auto; try lia.
  unfold program_page. rewrite (bind_val _ _ _ _ _ E1).
  change (negb (0 =? 0)) with false. cbv iota.
  erewrite bind_val by (apply erase_page_good; reflexivity).
  change (negb (0 =? 0)) with false. cbv iota.
  unfold write_page, bind at 1.
  fold (addr_lo addr). fold (addr_hi addr).
  rewrite command_frame_run. cbn [mem f win line log].
  rewrite <- !app_assoc. cbn [app].
  destruct (next_response rest) as [b|]; [|reflexivity].
  destruct (b =? 0) eqn:Eb; [|reflexivity].
  apply Z.eqb_eq in Eb. subst b. contradiction.
Qed.

(** ** The handshake *)

(** X8: [picoboot_initialize] sends one frame of four zero bytes straight
    to the line - the window and the image are not touched, frames waiting
    in the window are not flushed - reads one response, and returns 0 on
    the byte 0x00 and [-1] when the read fails; another byte ends the run
    with the protocol diagnostic. *)
Theorem initialize_sends_zero_frame :
  forall w r w',
    picoboot_initialize w = (r, w') ->
    mem w' = mem w /\ win w' = win w /\
    line w' = List.tl (line w) /\
    log w' = log w ++ [Tx [0; 0; 0; 0]; Rx (next_response (line w))] /\
    r = match next_response (line w) with
        | None => Val (-1)
        | Some b => if b =? 0 then Val 0 else Halt (Exit ProtocolError)
        end.
Proof.
  intros w r w' E.
  unfold picoboot_initialize, bind, picoboot_send_frame, set_check,
    serial_send, bind in E.
  cbn [mem f win line log data_lo data_hi command] in E.
  rewrite wait_ack_run in E. cbn [mem f win line log] in E.
  rewrite <- app_assoc in E. cbn [app] in E.
  destruct (next_response (line w)) as [b|];
    [destruct (b =? 0)|]; inversion E; subst; cbn [mem win line log];
    repeat split; reflexivity.
Qed.

(** ** The loop of [fill_page_buf] at the end of the 16-bit range *)

Lemma fill_loop_no_return fuel page_addr page_size :
  65536 <= u32 (page_addr + page_size) ->
  forall cur, 0 <= cur < 65536 ->
    triple (fun _ => True) (fill_loop fuel page_addr page_size cur)
           (fun _ _ => False) (fun _ _ => True).
Proof.
  intros Hb. induction fuel as [|fuel IH]; intros cur Hc; simpl;
    (destruct (cur <? u32 (page_addr + page_size)) eqn:E;
     [|apply Z.ltb_ge in E; lia]).
  - apply triple_stop. auto.
  - apply triple_bind with (Q := fun _ _ => True);
      [apply triple_any | intros _].
    apply IH. unfold u16. apply Z.mod_pos_bound. lia.
Qed.

(** X9: the loop of [fill_page_buf] compares its 16-bit counter with the
    bound [page_addr + page_size] computed in [unsigned int]: when this
    bound is 65536 or more the counter wraps before it reaches the bound,
    and the function returns for no amount of fuel: the loop goes on until
    an [exit] or a read outside the image ends the run. *)
Theorem fill_page_buf_never_returns_past_64k :
  forall fuel page_size page_addr w v w',
    0 <= page_addr < 65536 ->
    65536 <= u32 (page_addr + page_size) ->
    fill_page_buf fuel page_size page_addr w <> (Val v, w').
Proof.
  intros fuel page_size page_addr w v w' Ha Hb E.
  exact (fill_loop_no_return fuel page_addr page_size Hb page_addr Ha
                             w (Val v) w' I E).
Qed.

(** ** The window between two pages *)

Lemma submit_window fr j w r w' :
  length (win w) = (4 * j)%nat -> (j < 8)%nat ->
  submit fr w = (r, w') ->
  match r with
  | Val _ => length (win w') = (4 * ((j + 1) mod 8))%nat
  | Halt _ => win w' = []
  end.
Proof.
  intros Hl Hj E.
  destruct (Nat.eq_dec j 7%nat) as [->|Hne].
  - unfold submit, bind, set_f in E.
    rewrite buffered_send_flushes in E by (cbn [win]; exact Hl).
    apply wait_acks_effect in E. destruct E as (_ & Hw & _).
    cbn [win] in Hw. rewrite Hw. destruct r; reflexivity.
  - rewrite submit_buffers in E by lia. inversion E; subst.
    cbn [win]. rewrite length_app, Hl.
    rewrite Nat.mod_small by lia. simpl. lia.
Qed.

Lemma buffered_sends_window_length frs : forall j w r w',
  length (win w) = (4 * j)%nat -> (j < 8)%nat ->
  buffered_sends frs w = (r, w') ->
  match r with
  | Val _ => length (win w') = (4 * ((j + length frs) mod 8))%nat
  | Halt _ => win w' = []
  end.
Proof.
  induction frs as [|fr frs IH]; intros j w r w' Hl Hj E.
  - inversion E; subst. cbn [length]. rewrite Nat.add_0_r.
    now rewrite Nat.mod_small by lia.
  - cbn [buffered_sends] in E. unfold bind in E.
    destruct (submit fr w) as [[u|h] w1] eqn:E1.
    + pose proof (submit_window fr j w _ _ Hl Hj E1) as H1.
      cbn iota in H1.
      pose proof (IH ((j + 1) mod 8)%nat w1 r w' H1
                     ltac:(apply Nat.mod_upper_bound; lia) E) as H2.
      destruct r; [|exact H2].
      rewrite H2. cbn [length].
      rewrite Nat.Div0.add_mod_idemp_l.
      do 2 f_equal. lia.
    + inversion E; subst.
      exact (submit_window fr j w _ _ Hl Hj E1).
Qed.

Section Drained.

Variable m : AVRMEM.

(** the window is empty, and the image is [m] *)
Let drained : world -> Prop := fun w => win w = [] /\ mem w = m.

Let halted : halt -> world -> Prop := fun _ w => win w = [].

Lemma drained_fill_page_buf fuel q a :
  (4 * q <= fuel)%nat ->
  0 <= a ->
  a + 8 * Z.of_nat q <= Z.of_nat (length (buf m)) ->
  a + 8 * Z.of_nat q <= 65535 ->
  triple drained (fill_page_buf fuel (8 * Z.of_nat q) a)
         (fun r w => r = 0 /\ drained w) halted.
Proof.
  intros Hf Ha Hlen Hw w r w' (Hwin & Hm) Er.
  pose proof (page_words_windows q) as Hq.
  rewrite fill_page_buf_sends in Er by (rewrite ?Hm, ?Hq; lia).
  rewrite Hq in Er. unfold bind in Er.
  destruct (buffered_sends (fill_frames (buf (mem w)) a (4 * q)) w)
    as [[u|h] w1] eqn:E1.
  - pose proof (buffered_sends_window_length _ 0%nat w _ _
                  ltac:(rewrite Hwin; reflexivity) ltac:(lia) E1) as H1.
    cbn iota in H1. rewrite fill_frames_length in H1.
    replace ((0 + 2 * (4 * q)) mod 8)%nat with 0%nat in H1
      by (replace (0 + 2 * (4 * q))%nat with (q * 8)%nat by lia;
          now rewrite Nat.Div0.mod_mul).
    apply keeps_mem_buffered_sends in E1.
    inversion Er; subst. repeat split; try congruence.
    destruct (win w') eqn:Ew; [reflexivity | simpl in H1; lia].
  - inversion Er; subst.
    exact (buffered_sends_window_length _ 0%nat w _ _
             ltac:(rewrite Hwin; reflexivity) ltac:(lia) E1).
Qed.

Lemma drained_command a cmd :
  triple drained
         (set_f (addr_lo a) (addr_hi a) cmd ;;;
          picoboot_send_frame ;;;
          r <- picoboot_wait_ack ;;
          if negb (r =? 0) then ret (-1) else ret 0)
         (fun _ => drained) halted.
Proof.
  intros w r w' (Hwin & Hm) Er.
  rewrite command_frame_run in Er.
  injection Er as Hr Hw'. subst w'.
  destruct r; unfold drained, halted; cbn [win mem]; auto.
Qed.

Lemma drained_program_page fuel q a k (Q : Z -> world -> Prop) :
  (4 * q <= fuel)%nat ->
  0 <= a ->
  a + 8 * Z.of_nat q <= Z.of_nat (length (buf m)) ->
  a + 8 * Z.of_nat q <= 65535 ->
  (forall w, drained w -> Q (-1) w) ->
  triple drained k Q halted ->
  triple drained (program_page fuel (8 * Z.of_nat q) a a k) Q halted.
Proof.
  intros Hf Ha Hlen Hw Hq Hk. unfold program_page.
  apply triple_bind with (Q := fun r w => r = 0 /\ drained w);
    [now apply drained_fill_page_buf | intros r1].
  apply triple_if; [apply triple_ret; intros w (_ & H); auto|].
  apply triple_bind with (Q := fun _ => drained).
  { eapply triple_weaken; [ | | | apply (drained_command a 3)].
    - intros w (_ & H). exact H.
    - auto.
    - auto. }
  intros r2. apply triple_if; [apply triple_ret; auto|].
  apply triple_bind with (Q := fun _ => drained);
    [apply (drained_command a 5) | intros r3].
  apply triple_if; [apply triple_ret; auto | exact Hk].
Qed.

End Drained.

(** X10: a paged write whose page is a whole number of windows
    ([page_size] a positive multiple of 8) and that starts with the window
    empty ends with the window empty, whatever the line answers and
    however the call ends: no frame of one page waits for the next. *)
Theorem paged_write_leaves_window_empty :
  forall fuel q addr num_bytes w r w',
    flash_image (mem w) ->
    (0 < q)%nat ->
    8 * Z.of_nat q <= size (mem w) - BOOTLOADER_SIZE ->
    0 <= addr ->
    (4 * q <= fuel)%nat ->
    win w = [] ->
    picoboot_paged_write fuel (8 * Z.of_nat q) addr num_bytes w = (r, w') ->
    win w' = [].
Proof.
  intros fuel q addr num_bytes w r w' Hf Hq Hps Haddr Hfuel Hwin Er.
  pose proof Hf as (Hd & Hlen & Hs). unfold BOOTLOADER_SIZE in *.
  assert (Hv : vrst_vec_addr (mem w) = size (mem w) - 66).
  { apply vrst_vec_addr_eq. unfold BOOTLOADER_SIZE. lia. }
  set (page_size := 8 * Z.of_nat q) in *.
  set (Q := fun (m : AVRMEM) (_ : Z) (w1 : world) =>
              win w1 = [] /\ mem w1 = m).
  assert (Hpage : forall m a,
    Z.of_nat (length (buf m)) = size (mem w) ->
    0 <= a -> a + page_size <= size (mem w) - 66 ->
    triple (fun w1 => win w1 = [] /\ mem w1 = m)
           (program_page fuel page_size a a (ret (s32 num_bytes)))
           (Q m) (fun _ w1 => win w1 = [])).
  { intros m a Hm Ha Hap.
    apply (drained_program_page m); try lia.
    - intros w1 H. exact H.
    - apply triple_ret. intros w1 H. exact H. }
  unfold picoboot_paged_write in Er. rewrite flash_eqb in Er by assumption.
  rewrite Hv in Er.
  destruct (size (mem w) - 66 <=? addr) eqn:E1.
  { inversion Er; subst. assumption. }
  apply Z.leb_gt in E1.
  rewrite u32_small in Er by lia.
  destruct (size (mem w) - 66 - page_size <? addr) eqn:E2.
  { inversion Er; subst. assumption. }
  apply Z.ltb_ge in E2.
  destruct (addr =? 0) eqn:E0.
  - apply Z.eqb_eq in E0. subst addr.
    destruct (lookup_lt_is_Some_2 (buf (mem w)) 0%nat) as [b0 H0]; [lia|].
    destruct (lookup_lt_is_Some_2 (buf (mem w)) 1%nat) as [b1 H1]; [lia|].
    destruct (Z.eq_dec (Z.land (word16 b0 b1) 61440) 49152) as [Hj|Hj].
    + rewrite (relocate_valid _ _ _ _ b0 b1) in Er by assumption.
      rewrite Hv in Er.
      replace (u16 (size (mem w) - 66 - page_size + 2))
        with (size (mem w) - 64 - page_size) in Er
        by (rewrite u16_small; lia).
      change (u16 0) with 0 in Er. change (s32 0) with 0 in Er.
      set (m' := redirect (mem w) (word16 b0 b1)) in *.
      assert (Hlen' : Z.of_nat (length (buf m')) = size (mem w))
        by (unfold m'; now rewrite redirect_length).
      assert (T : triple
                (fun w1 => win w1 = [] /\ mem w1 = m')
                (program_page fuel page_size
                   (size (mem w) - 64 - page_size)
                   (size (mem w) - 64 - page_size)
                   (program_page fuel page_size 0 0 (ret (s32 num_bytes))))
                (Q m') (fun _ w1 => win w1 = [])).
      { apply (drained_program_page m'); try lia.
        - intros w1 H. exact H.
        - apply Hpage; lia. }
      pose proof (T (with_mem w m') r w' (conj Hwin eq_refl) Er) as H.
      destruct r; [exact (proj1 H) | exact H].
    + rewrite (relocate_invalid _ _ _ _ b0 b1) in Er by assumption.
      inversion Er; subst. assumption.
  - apply Z.eqb_neq in E0.
    rewrite u16_small in Er by lia. rewrite s32_small in Er by lia.
    pose proof (Hpage (mem w) addr Hlen Haddr ltac:(lia) w r w'
                      (conj Hwin eq_refl) Er) as H.
    destruct r; [exact (proj1 H) | exact H].
Qed.

(** ** An ordinary page on a line that acknowledges every frame *)

(** X11: an ordinary page of one or more whole windows, started with the
    window empty on a line that acknowledges every frame: the call returns
    [num_bytes], consumes one response per frame ([8 * q] for the fill
    frames, one for the erase and one for the write), adds the log of the
    page - the flushes of the fill frames, then the erase frame, then the
    write frame - and leaves the image and the empty window as they were;
    the bytes sent are the frames of the page in order. *)
Theorem paged_write_ordinary_page :
  forall fuel q addr num_bytes w rest,
    flash_image (mem w) ->
    (0 < q)%nat ->
    0 < addr ->
    addr + 8 * Z.of_nat q <= size (mem w) - BOOTLOADER_SIZE ->
    (4 * q <= fuel)%nat ->
    0 <= num_bytes < 2147483648 ->
    win w = [] ->
    line w = repeat (Some 0) (8 * q + 2) ++ rest ->
    exists w',
      picoboot_paged_write fuel (8 * Z.of_nat q) addr num_bytes w
      = (Val num_bytes, w') /\
      mem w' = mem w /\ win w' = [] /\ line w' = rest /\
      log w' = log w ++ page_log (buf (mem w)) addr (4 * q) /\
      tx_bytes (page_log (buf (mem w)) addr (4 * q))
      = wire (page_frames (buf (mem w)) addr (4 * q)).
Proof.
  intros fuel q addr num_bytes w rest Hf Hq Ha Hb Hfuel Hn Hwin Hl.
  pose proof Hf as (Hd & Hlen & Hs). unfold BOOTLOADER_SIZE in *.
  rewrite ordinary_page_run by (unfold BOOTLOADER_SIZE; auto; lia).
  destruct (program_page_good fuel q addr (ret (s32 num_bytes)) w rest)
    as (fr' & E); auto; try lia.
  { rewrite Hl. replace (8 * q + 2)%nat with (8 * q + (1 + 1))%nat by lia.
    rewrite !repeat_app, <- !app_assoc. reflexivity. }
  rewrite E. rewrite s32_small by lia.
  eexists. split; [reflexivity|]. cbn [mem win line log].
  repeat split. apply tx_bytes_page_log.
Qed.

(** ** Page zero written twice *)

Lemma redirect_flash_image m wd :
  flash_image m -> flash_image (redirect m wd).
Proof.
  intros (Hd & Hl & Hs). unfold flash_image.
  rewrite redirect_length. unfold redirect. cbn [desc size]. auto.
Qed.

(** X12: the redirection of the reset vector is not idempotent. A second
    paged write at address 0 on the same image finds the jump to the
    bootloader at offset 0, takes it for the jump of the application and
    stores [rjmp .+0] (0x00 0xc0) in the slot of the virtual reset vector:
    the entry of the application saved by the first call is lost. *)
Theorem paged_write_page_zero_twice :
  forall fuel1 fuel2 ps1 ps2 n1 n2 w b0 b1 v w1 r w2,
    flash_image (mem w) ->
    buf (mem w) !! 0%nat = Some b0 ->
    buf (mem w) !! 1%nat = Some b1 ->
    is_rjmp (word16 b0 b1) ->
    picoboot_paged_write fuel1 ps1 0 n1 w = (Val v, w1) ->
    picoboot_paged_write fuel2 ps2 0 n2 w1 = (r, w2) ->
    buf (mem w2) !! 0%nat = Some 223 /\
    buf (mem w2) !! 1%nat = Some 207 /\
    buf (mem w2) !! Z.to_nat (size (mem w) - 66) = Some 0 /\
    buf (mem w2) !! Z.to_nat (size (mem w) - 65) = Some 192.
Proof.
  intros fuel1 fuel2 ps1 ps2 n1 n2 w b0 b1 v w1 r w2 Hf H0 H1 Hj E1 E2.
  pose proof (paged_write_zero_mem _ _ _ _ _ _ _ _ Hf H0 H1 Hj E1) as Hm1.
  pose proof (redirect_flash_image (mem w) (word16 b0 b1) Hf) as Hf1.
  destruct (redirect_lookups (mem w) (word16 b0 b1) Hf) as (L0 & L1 & _).
  rewrite <- Hm1 in Hf1, L0, L1.
  assert (Hj1 : is_rjmp (word16 223 207)) by reflexivity.
  pose proof (paged_write_zero_mem _ _ _ _ _ _ _ _ Hf1 L0 L1 Hj1 E2) as Hm2.
  destruct (redirect_lookups (mem w1) (word16 223 207) Hf1)
    as (K0 & K1 & K2 & K3).
  rewrite <- Hm2 in K0, K1, K2, K3.
  assert (Hs : size (mem w1) = size (mem w)) by (rewrite Hm1; reflexivity).
  rewrite Hs in K2, K3.
  repeat split; assumption.
Qed.

(** ** No frame is lost in the window *)

Lemma tx_bytes_no_tx l : (forall bs, ~ In (Tx bs) l) -> tx_bytes l = [].
Proof.
  induction l as [|[bs|x] l IH]; intros H; [reflexivity | | ].
  - exfalso. apply (H bs). now left.
  - cbn [tx_bytes]. apply IH. intros bs Hin. apply (H bs). now right.
Qed.

Lemma submit_conserves fr j w r w' :
  length (win w) = (4 * j)%nat -> (j < 8)%nat ->
  submit fr w = (r, w') ->
  exists l, log w' = log w ++ l /\
            tx_bytes l ++ win w' = win w ++ frame_bytes (sealed fr).
Proof.
  intros Hl Hj E.
  destruct (Nat.eq_dec j 7%nat) as [->|Hne].
  - unfold submit, bind, set_f in E.
    rewrite buffered_send_flushes in E by (cbn [win]; exact Hl).
    apply wait_acks_effect in E.
    destruct E as (_ & Hw & (l & Hlog & Hno) & _).
    cbn [win log f sealed data_lo data_hi command] in Hw, Hlog.
    exists (Tx (win w ++ frame_bytes (sealed fr)) :: l). split.
    + rewrite Hlog, <- app_assoc. reflexivity.
    + cbn [tx_bytes]. rewrite Hw, (tx_bytes_no_tx l Hno), !app_nil_r.
      reflexivity.
  - rewrite submit_buffers in E by lia. inversion E; subst.
    exists []. cbn [win log tx_bytes]. now rewrite app_nil_r.
Qed.

Lemma buffered_sends_conserve frs : forall j w u w',
  length (win w) = (4 * j)%nat -> (j < 8)%nat ->
  buffered_sends frs w = (Val u, w') ->
  exists l, log w' = log w ++ l /\
            tx_bytes l ++ win w' = win w ++ wire frs.
Proof.
  induction frs as [|fr frs IH]; intros j w u w' Hl Hj E.
  - inversion E; subst. exists []. cbn. now rewrite !app_nil_r.
  - cbn [buffered_sends] in E. unfold bind in E.
    destruct (submit fr w) as [[v|h] w1] eqn:E1; [|discriminate].
    pose proof (submit_window fr j w _ _ Hl Hj E1) as H1. cbn iota in H1.
    destruct (submit_conserves fr j w _ _ Hl Hj E1) as (l1 & Hl1 & Hc1).
    destruct (IH ((j + 1) mod 8)%nat w1 u w' H1
                 ltac:(apply Nat.mod_upper_bound; lia) E)
      as (l2 & Hl2 & Hc2).
    exists (l1 ++ l2). split.
    + now rewrite Hl2, Hl1, app_assoc.
    + rewrite tx_bytes_app, <- app_assoc, Hc2, app_assoc, Hc1.
      unfold wire. cbn [flat_map]. now rewrite <- app_assoc.
Qed.

(** X13: the window neither drops, repeats nor reorders frames, whatever
    the line answers: when [fill_page_buf] returns, the bytes it has sent
    followed by the bytes still in the window are the bytes that were in
    the window before followed by the frames of the page, in order. *)
Theorem fill_page_buf_conserves_frames :
  forall fuel page_size page_addr j w v w',
    (page_words page_size <= fuel)%nat ->
    0 <= page_addr ->
    0 <= page_size ->
    page_addr + 2 * Z.of_nat (page_words page_size)
      <= Z.of_nat (length (buf (mem w))) ->
    page_addr + 2 * Z.of_nat (page_words page_size) <= 65535 ->
    length (win w) = (4 * j)%nat -> (j < 8)%nat ->
    fill_page_buf fuel page_size page_addr w = (Val v, w') ->
    exists l,
      log w' = log w ++ l /\
      tx_bytes l ++ win w'
      = win w ++ wire (fill_frames (buf (mem w)) page_addr
                                   (page_words page_size)).
Proof.
  intros fuel page_size page_addr j w v w' Hf Ha Hp Hlen Hw Hl Hj E.
  rewrite fill_page_buf_sends in E by assumption.
  unfold bind in E.
  destruct (buffered_sends
              (fill_frames (buf (mem w)) page_addr (page_words page_size)) w)
    as [[u|h] w1] eqn:E1; [|discriminate].
  inversion E; subst.
  exact (buffered_sends_conserve _ j w u w' Hl Hj E1).
Qed.

(** the fill step of a page of whole windows, from an empty window *)
Lemma whole_windows_conserve fuel q a w w1 :
  (4 * q <= fuel)%nat ->
  0 <= a ->
  a + 8 * Z.of_nat q <= Z.of_nat (length (buf (mem w))) ->
  a + 8 * Z.of_nat q <= 65535 ->
  win w = [] ->
  fill_page_buf fuel (8 * Z.of_nat q) a w = (Val 0, w1) ->
  win w1 = [] /\
  exists l, log w1 = log w ++ l /\
            tx_bytes l = wire (fill_frames (buf (mem w)) a (4 * q)).
Proof.
  intros Hf Ha Hlen Hw Hwin E.
  pose proof (page_words_windows q) as Hq.
  rewrite fill_page_buf_sends in E by (rewrite ?Hq; lia).
  rewrite Hq in E. unfold bind in E.
  destruct (buffered_sends (fill_frames (buf (mem w)) a (4 * q)) w)
    as [[u|h] w2] eqn:E1; [|discriminate].
  inversion E; subst w2.
  pose proof (buffered_sends_window_length _ 0%nat w _ _
                ltac:(rewrite Hwin; reflexivity) ltac:(lia) E1) as H1.
  cbn iota in H1. rewrite fill_frames_length in H1.
  replace ((0 + 2 * (4 * q)) mod 8)%nat with 0%nat in H1
    by (replace (0 + 2 * (4 * q))%nat with (q * 8)%nat by lia;
        now rewrite Nat.Div0.mod_mul).
  assert (Hw1 : win w1 = [])
    by (destruct (win w1); [reflexivity | simpl in H1; lia]).
  split; [exact Hw1|].
  destruct (buffered_sends_conserve _ 0%nat w u w1
              ltac:(rewrite Hwin; reflexivity) ltac:(lia) E1)
    as (l & Hl & Hc).
  exists l. split; [exact Hl|].
  rewrite Hw1, Hwin, app_nil_r in Hc. exact Hc.
Qed.

(** X14: success means that every frame went out. An ordinary page of one
    or more whole windows, started with the window empty: if the call
    returns [num_bytes], the bytes it has sent are exactly the frames of
    the page in order - the fill frames, the erase frame, the write
    frame - and the window is empty; this holds whatever the line
    answered to the fill frames. *)
Theorem paged_write_success_sends_page :
  forall fuel q addr num_bytes w w',
    flash_image (mem w) ->
    (0 < q)%nat ->
    0 < addr ->
    addr + 8 * Z.of_nat q <= size (mem w) - BOOTLOADER_SIZE ->
    (4 * q <= fuel)%nat ->
    0 <= num_bytes < 2147483648 ->
    win w = [] ->
    picoboot_paged_write fuel (8 * Z.of_nat q) addr num_bytes w
    = (Val num_bytes, w') ->
    win w' = [] /\
    exists l,
      log w' = log w ++ l /\
      tx_bytes l = wire (page_frames (buf (mem w)) addr (4 * q)).
Proof.
  intros fuel q addr num_bytes w w' Hf Hq Ha Hb Hfuel Hn Hwin E.
  pose proof Hf as (Hd & Hlen & Hs). unfold BOOTLOADER_SIZE in *.
  pose proof (page_words_windows q) as Hpw.
  rewrite ordinary_page_run in E by (unfold BOOTLOADER_SIZE; auto; lia).
  rewrite s32_small in E by lia.
  unfold program_page in E. unfold bind at 1 in E.
  destruct (fill_page_buf fuel (8 * Z.of_nat q) addr w)
    as [[r1|h] w1] eqn:E1; [|discriminate].
  pose proof (fill_loop_result fuel addr (8 * Z.of_nat q) addr
                               w (Val r1) w1 I E1) as Hr1.
  cbv beta iota in Hr1. subst r1.
  destruct (whole_windows_conserve fuel q addr w w1)
    as (Hw1 & l1 & Hl1 & Hc1); auto; try lia.
  change (negb (0 =? 0)) with false in E. cbv iota in E.
  unfold erase_page in E. unfold bind at 1 in E.
  fold (addr_lo addr) in E. fold (addr_hi addr) in E.
  rewrite command_frame_run in E.
  destruct (next_response (line w1)) as [x|] eqn:Ex;
    [destruct (x =? 0) eqn:Ex0; [|discriminate]|].
  2:{ cbn in E. inversion E. lia. }
  change (negb (0 =? 0)) with false in E. cbv iota in E.
  unfold write_page in E. unfold bind at 1 in E.
  fold (addr_lo addr) in E. fold (addr_hi addr) in E.
  rewrite command_frame_run in E. cbn [mem f win line log] in E.
  destruct (next_response (List.tl (line w1))) as [y|] eqn:Ey;
    [destruct (y =? 0) eqn:Ey0; [|discriminate]|].
  2:{ cbn in E. inversion E. lia. }
  change (negb (0 =? 0)) with false in E. cbv iota in E.
  inversion E; subst. cbn [win log]. split; [exact Hw1|].
  eexists. split.
  - rewrite Hl1, <- !app_assoc. reflexivity.
  - rewrite tx_bytes_app, Hc1. unfold page_frames, wire.
    rewrite flat_map_app. cbn. rewrite ?app_nil_r. reflexivity.
Qed.

(** ** Concrete runs of the further properties *)

(** a page at 8 whose first flush is not acknowledged *)
Lemma paged_write_sends_checksummed_frames_witness :
  let w := demo_world demo_mem [Some 0; None] in
  let w' := snd (picoboot_paged_write 4 8 8 8 w) in
  frames_ok (win w') = true /\
  (length (win w') < 32)%nat /\
  exists l, log w' = log w ++ l /\
            forall bs, In (Tx bs) l -> frames_ok bs = true.
Proof.
  refine (paged_write_sends_checksummed_frames 4 8 8 8
            (demo_world demo_mem [Some 0; None]) _ _ _ _
            (surjective_pairing _)).
  - concrete.
  - concrete.
Defined.

Lemma paged_write_returns_or_exits_witness :
  let r := fst (picoboot_paged_write 4 8 8 8
                  (demo_world demo_mem [Some 0; None])) in
  (exists v, r = Val v) \/ (exists d, r = Halt (Exit d)).
Proof.
  refine (paged_write_returns_or_exits 4 8 8 8
            (demo_world demo_mem [Some 0; None]) _ _
            demo_flash_image _ _ _ _ _ (surjective_pairing _)).
  - concrete.
  - concrete.
  - concrete.
  - concrete.
  - concrete.
Defined.

Lemma paged_write_spares_bootloader_witness :
  let w := demo_world demo_mem [Some 0; None] in
  let w' := snd (picoboot_paged_write 4 8 0 8 w) in
  frames_below 64 (win w') = true /\
  exists l, log w' = log w ++ l /\
    forall bs, In (Tx bs) l ->
      frames_ok bs = true /\ frames_below 64 bs = true.
Proof.
  refine (paged_write_spares_bootloader 4 8 0 8
            (demo_world demo_mem [Some 0; None]) _ _
            demo_flash_image _ _ _ _ _ _ (surjective_pairing _)).
  - concrete.
  - concrete.
  - concrete.
  - concrete.
  - concrete.
  - concrete.
Defined.

(** on a silent line the call returns [-1] *)
Lemma paged_write_result_witness :
  picoboot_paged_write 4 8 8 8 (demo_world demo_mem [])
  = (Val (-1), snd (picoboot_paged_write 4 8 8 8 (demo_world demo_mem [])))
  /\ (-1 = -1 \/ -1 = s32 8).
Proof.
  assert (E : picoboot_paged_write 4 8 8 8 (demo_world demo_mem [])
              = (Val (-1),
                 snd (picoboot_paged_write 4 8 8 8 (demo_world demo_mem []))))
    by (vm_compute; reflexivity).
  split; [exact E | exact (paged_write_result 4 8 8 8 _ _ _ E)].
Defined.

(** on a silent line the flush of the eight fill frames is not
    acknowledged, and [fill_page_buf] returns 0 *)
Lemma fill_page_buf_reports_success_witness :
  let w := demo_world demo_mem [] in
  fill_page_buf 4 8 8 w = (Val 0, snd (fill_page_buf 4 8 8 w)) /\
  (0 = 0 /\ mem (snd (fill_page_buf 4 8 8 w)) = mem w).
Proof.
  assert (E : fill_page_buf 4 8 8 (demo_world demo_mem [])
              = (Val 0, snd (fill_page_buf 4 8 8 (demo_world demo_mem []))))
    by (vm_compute; reflexivity).
  split; [exact E | exact (fill_page_buf_reports_success 4 8 8 _ _ _ E)].
Defined.

Lemma paged_write_stops_at_failed_erase_witness :
  picoboot_paged_write 4 8 8 8 (demo_world demo_mem (repeat (Some 0) 8))
  = (Val (-1),
     mk_world demo_mem (make_frame 8 0 3) [] []
       (flat_map flush_log (windows (fill_frames demo_buf 8 4))
        ++ [Tx (frame_bytes (make_frame 8 0 3)); Rx None])).
Proof.
  refine (paged_write_stops_at_failed_erase 4 1 8 8
            (demo_world demo_mem (repeat (Some 0) 8)) []
            demo_flash_image _ _ _ _ eq_refl eq_refl _).
  - concrete.
  - concrete.
  - concrete.
  - concrete.
  - concrete.
Defined.

Lemma paged_write_stops_at_failed_write_witness :
  picoboot_paged_write 4 8 8 8 (demo_world demo_mem (repeat (Some 0) 9))
  = (Val (-1),
     mk_world demo_mem (make_frame 8 0 5) [] []
       (flat_map flush_log (windows (fill_frames demo_buf 8 4))
        ++ [Tx (frame_bytes (make_frame 8 0 3)); Rx (Some 0);
            Tx (frame_bytes (make_frame 8 0 5)); Rx None])).
Proof.
  refine (paged_write_stops_at_failed_write 4 1 8 8
            (demo_world demo_mem (repeat (Some 0) 9)) []
            demo_flash_image _ _ _ _ eq_refl eq_refl _).
  - concrete.
  - concrete.
  - concrete.
  - concrete.
  - concrete.
Defined.

Lemma initialize_sends_zero_frame_witness :
  let w := demo_world demo_mem [Some 0] in
  let r := fst (picoboot_initialize w) in
  let w' := snd (picoboot_initialize w) in
  mem w' = mem w /\ win w' = win w /\
  line w' = [] /\
  log w' = [Tx [0; 0; 0; 0]; Rx (Some 0)] /\
  r = Val 0.
Proof.
  exact (initialize_sends_zero_frame (demo_world demo_mem [Some 0]) _ _
           (surjective_pairing _)).
Defined.

(** On the 65536-byte image the paged write passes the page at 65468 on
    for a page size of 65536: 65468 is below 65470, and the bound
    [65470 - page_size] of the second guard wraps in [unsigned int]. The
    loop then reads inside the buffer all the way: after the word at 65534
    its counter is 0 again, the ninth block sent holds the words at 65532,
    65534, 0 and 2, and the fuel runs out. *)
Lemma fill_page_buf_never_returns_past_64k_witness :
  let w := demo_world demo_wide_mem [] in
  let run := fill_page_buf 36 65536 65468 w in
  run <> (Val 0, snd run) /\
  fst run = Halt OutOfFuel /\
  log (snd run) !! 16%nat
  = Some (Tx (wire (fill_frames (buf demo_wide_mem) 65532 2
                    ++ fill_frames (buf demo_wide_mem) 0 2))) /\
  fst (picoboot_paged_write 36 65536 65468 8 w) = Halt OutOfFuel.
Proof.
  split; [|vm_compute; repeat split].
  apply (fill_page_buf_never_returns_past_64k 36 65536 65468
           (demo_world demo_wide_mem []) 0
           (snd (fill_page_buf 36 65536 65468
                   (demo_world demo_wide_mem []))));
    concrete.
Defined.

Lemma paged_write_leaves_window_empty_witness :
  win (snd (picoboot_paged_write 4 8 8 8
              (demo_world demo_mem [None; Some 0]))) = [].
Proof.
  refine (paged_write_leaves_window_empty 4 1 8 8
            (demo_world demo_mem [None; Some 0]) _ _
            demo_flash_image _ _ _ _ eq_refl (surjective_pairing _)).
  - concrete.
  - concrete.
  - concrete.
  - concrete.
Defined.

Lemma paged_write_ordinary_page_witness :
  exists w',
    picoboot_paged_write 4 8 8 8 (demo_world demo_mem (repeat (Some 0) 10))
    = (Val 8, w') /\
    mem w' = demo_mem /\ win w' = [] /\ line w' = [] /\
    log w' = [] ++ page_log demo_buf 8 4 /\
    tx_bytes (page_log demo_buf 8 4) = wire (page_frames demo_buf 8 4).
Proof.
  refine (paged_write_ordinary_page 4 1 8 8
            (demo_world demo_mem (repeat (Some 0) 10)) []
            demo_flash_image _ _ _ _ _ eq_refl eq_refl).
  - concrete.
  - concrete.
  - concrete.
  - concrete.
  - concrete.
Defined.

(** page zero written on a silent line - the call returns [-1] - and
    written again *)
Lemma paged_write_page_zero_twice_witness :
  let w := demo_world demo_mem [] in
  let w1 := snd (picoboot_paged_write 4 8 0 8 w) in
  let w2 := snd (picoboot_paged_write 4 8 0 8 w1) in
  buf (mem w2) !! 0%nat = Some 223 /\
  buf (mem w2) !! 1%nat = Some 207 /\
  buf (mem w2) !! 62%nat = Some 0 /\
  buf (mem w2) !! 63%nat = Some 192.
Proof.
  refine (paged_write_page_zero_twice 4 4 8 8 8 8
            (demo_world demo_mem []) 240 195 (-1)
            (snd (picoboot_paged_write 4 8 0 8 (demo_world demo_mem [])))
            _ _
            demo_flash_image eq_refl eq_refl demo_rjmp _
            (surjective_pairing _)).
  vm_compute. reflexivity.
Defined.

Lemma fill_page_buf_conserves_frames_witness :
  let w := demo_world demo_mem [None] in
  let w' := snd (fill_page_buf 4 8 8 w) in
  exists l,
    log w' = log w ++ l /\
    tx_bytes l ++ win w'
    = win w ++ wire (fill_frames demo_buf 8 (page_words 8)).
Proof.
  refine (fill_page_buf_conserves_frames 4 8 8 0
            (demo_world demo_mem [None]) 0
            (snd (fill_page_buf 4 8 8 (demo_world demo_mem [None])))
            _ _ _ _ _ _ _ _).
  - concrete.
  - concrete.
  - concrete.
  - concrete.
  - concrete.
  - concrete.
  - concrete.
  - vm_compute. reflexivity.
Defined.

(** the flush of the fill frames is not acknowledged, the erase and the
    write are: the call returns 8 *)
Lemma paged_write_success_sends_page_witness :
  let w := demo_world demo_mem [None; Some 0; Some 0] in
  let w' := snd (picoboot_paged_write 4 8 8 8 w) in
  win w' = [] /\
  exists l,
    log w' = log w ++ l /\
    tx_bytes l = wire (page_frames demo_buf 8 4).
Proof.
  refine (paged_write_success_sends_page 4 1 8 8
            (demo_world demo_mem [None; Some 0; Some 0])
            (snd (picoboot_paged_write 4 8 8 8
                    (demo_world demo_mem [None; Some 0; Some 0])))
            demo_flash_image _ _ _ _ _ eq_refl _).
  - concrete.
  - concrete.
  - concrete.
  - concrete.
  - concrete.
  - vm_compute. reflexivity.
Defined.
